(** * cr_cleaner: finding and removing CR+LF line ends

    A shallow embedding of [modules/cr_cleaner.py].  Python [bytes] are lists
    of [Byte.byte], [str] values are [string]s, the file system is a finite
    map from paths to entries, and the functions that do I/O live in a small
    state-and-exception monad over a [world]. *)

From Stdlib Require Import Strings.Byte Strings.Ascii DecimalString.
From stdpp Require Import gmap strings list.

(** ** Python [bytes] *)

Abbreviation bytes := (list byte).

#[global] Instance byte_eq_dec : EqDecision byte := Byte.byte_eq_dec.

Definition CR : byte := x0d.
Definition LF : byte := x0a.

(** The literal [b'\r\n'] and the literal [b'\n']. *)
Definition CRLF : bytes := [CR; LF].
Definition NL : bytes := [LF].

Module Bytes.

(** [s.startswith(pre)] *)
Fixpoint startswith (s pre : bytes) {struct pre} : bool :=
  match pre with
  | [] => true
  | p :: pre' =>
      match s with
      | [] => false
      | c :: s' => Byte.eqb c p && startswith s' pre'
      end
  end.

(** [s.endswith(suf)]: [suf] is no longer than [s] and equals the slice
    [s[len(s)-len(suf):]]. *)
Definition endswith (s suf : bytes) : bool :=
  (length suf <=? length s) &&
  bool_decide (drop (length s - length suf) s = suf).

(** Left-to-right scan of [s.replace(old, new)] for a non-empty [old]:
    [skip] counts the bytes of a match that are still to be dropped. *)
Fixpoint replace_from (old new : bytes) (skip : nat) (s : bytes) : bytes :=
  match s with
  | [] => []
  | c :: s' =>
      match skip with
      | S k => replace_from old new k s'
      | O =>
          if startswith s old
          then new ++ replace_from old new (length old - 1) s'
          else c :: replace_from old new 0 s'
      end
  end.

(** [s.replace(old, new)]: every non-overlapping occurrence, leftmost
    first.  With an empty [old], [new] goes before every byte and at the
    end. *)
Definition replace (s old new : bytes) : bytes :=
  match old with
  | [] => new ++ flat_map (fun c => c :: new) s
  | _ :: _ => replace_from old new 0 s
  end.

(** The lines of a byte string as [readlines()] of a binary file returns
    them: each line keeps its [\n]; only the last one may lack it. *)
Fixpoint splitlines (s : bytes) : list bytes :=
  match s with
  | [] => []
  | c :: s' =>
      if Byte.eqb c LF then [c] :: splitlines s'
      else match splitlines s' with
           | [] => [[c]]
           | l :: ls => (c :: l) :: ls
           end
  end.

(** [repr(b)] as an f-string field [{line}] prints it. *)
Definition hex_digit (n : N) : ascii :=
  ascii_of_N (if (n <? 10)%N then 48 + n else 87 + n)%N.

Definition repr_byte (quote c : byte) : string :=
  let n := Byte.to_N c in
  if Byte.eqb c quote || Byte.eqb c x5c
  then String (ascii_of_byte x5c) (String (ascii_of_byte c) "")
  else if Byte.eqb c x09 then "\t"
  else if Byte.eqb c x0a then "\n"
  else if Byte.eqb c x0d then "\r"
  else if (n <? 32)%N || (127 <=? n)%N
  then String (ascii_of_byte x5c)
         (String "x"%char (String (hex_digit (n / 16)) (String (hex_digit (n mod 16)) "")))
  else String (ascii_of_byte c) "".

Definition repr (s : bytes) : string :=
  let quote :=
    if bool_decide (x27 ∈ s) && negb (bool_decide (x22 ∈ s)) then x22 else x27 in
  "b" +:+ String (ascii_of_byte quote)
    (String.concat "" (map (repr_byte quote) s) +:+ String (ascii_of_byte quote) "").

End Bytes.

(** Byte strings of ASCII text, for the examples. *)
Definition b (s : string) : bytes := String.list_byte_of_string s.

(** ** Python [str] and [os.path] (POSIX flavour) *)

Module Str.

(** [needle in hay] on [str]: [needle] occurs as a contiguous substring. *)
Fixpoint contains (hay needle : string) : bool :=
  String.prefix needle hay ||
  match hay with
  | EmptyString => false
  | String _ hay' => contains hay' needle
  end.

(** [s[n:]] for [0 <= n]. *)
Fixpoint drop (n : nat) (s : string) : string :=
  match n, s with
  | O, _ => s
  | S n', String _ s' => drop n' s'
  | S _, EmptyString => EmptyString
  end.

(** [s.endswith(c)] for a one-character [c]. *)
Fixpoint endswith_char (s : string) (c : ascii) : bool :=
  match s with
  | EmptyString => false
  | String a EmptyString => Ascii.eqb a c
  | String _ s' => endswith_char s' c
  end.

Fixpoint rfind_from (c : ascii) (i : Z) (s : string) (last : Z) : Z :=
  match s with
  | EmptyString => last
  | String a s' => rfind_from c (i + 1) s' (if Ascii.eqb a c then i else last)
  end.

(** [s.rfind(c)]: the index of the last [c], or [-1]. *)
Definition rfind (s : string) (c : ascii) : Z := rfind_from c 0 s (-1).

Definition lower_char (a : ascii) : ascii :=
  let n := nat_of_ascii a in
  if (65 <=? n) && (n <=? 90) then ascii_of_nat (n + 32) else a.

(** [s.lower()], on ASCII text. *)
Fixpoint lower (s : string) : string :=
  match s with
  | EmptyString => EmptyString
  | String a s' => String (lower_char a) (lower s')
  end.

(** [s[:1]] *)
Definition first1 (s : string) : string :=
  match s with
  | EmptyString => EmptyString
  | String a _ => String a EmptyString
  end.

(** [str(i)] for a non-negative [int]. *)
Definition of_nat (i : nat) : string := NilEmpty.string_of_uint (Nat.to_uint i).

End Str.

Module os_path.

(** [os.path.join(a, b)] *)
Definition join (a p : string) : string :=
  if String.prefix "/" p then p
  else if String.eqb a "" || Str.endswith_char a "/" then a +:+ p
  else a +:+ "/" +:+ p.

(** [os.path.split(p)[1]]: what follows the last slash. *)
Definition split_tail (p : string) : string :=
  Str.drop (Z.to_nat (Str.rfind p "/" + 1)) p.

(** The [while] loop of [genericpath._splitext] that skips leading dots:
    [true] when it leaves through its inner [return], at a character of
    the file name that is not a dot. *)
Fixpoint skip_leading_dots (p : string) (filenameIndex : nat) (steps : nat) : bool :=
  match steps with
  | O => false
  | S steps' =>
      match String.get filenameIndex p with
      | Some a =>
          if negb (Ascii.eqb a ".") then true
          else skip_leading_dots p (S filenameIndex) steps'
      | None => true
      end
  end.

(** [os.path.splitext(p)[1]] *)
Definition splitext_ext (p : string) : string :=
  let sepIndex := Str.rfind p "/" in
  let dotIndex := Str.rfind p "." in
  if (sepIndex <? dotIndex)%Z
  then if skip_leading_dots p (Z.to_nat (sepIndex + 1))
            (Z.to_nat (dotIndex - (sepIndex + 1)))
       then Str.drop (Z.to_nat dotIndex) p
       else ""
  else "".

End os_path.

(** ** Values, exceptions and the world *)

(** What the functions of the module return: [None], [True] or [False]. *)
Inductive pyval :=
| PyNone
| PyBool (v : bool).

(** Truth value of a result in an [if]. *)
Definition truthy (v : pyval) : bool :=
  match v with
  | PyNone => false
  | PyBool v => v
  end.

(** The exceptions that can occur; all are subclasses of [Exception].
    [OSError] is the error of an operation on a path and carries the path;
    [OSError_read] is the [OSError] of a read on an open file, which carries
    no file name. *)
Inductive exn :=
| UnboundLocalError (name : string)
| OSError (errno : nat) (strerror : string) (filename : string)
| EOFError
| OSError_read (errno : nat) (strerror : string)
| ValueError (msg : string).

#[local] Set Warnings "-register-all".

(** A directory as [os.walk] sees it: the sub-directories and the files it
    lists, links to files among the files.  [Unlisted] is an entry that
    [os.walk] names among the sub-directories of its parent but does not walk
    (a link to a directory, or a directory that [scandir] cannot read). *)
Inductive dirtree :=
| Dir (sub_dirs : list (string * dirtree)) (sub_files : list string)
| Unlisted.

(** An entry of the file system at a path:
    - a file that can be read, with its content and whether it can be
      written;
    - something that cannot be opened, with the error of the operating
      system;
    - a file that can be opened but whose content cannot be read, with the
      error of the read;
    - another name of the file at [target]: a symbolic link to it, or a hard
      link.  What is written through one name is what the other names
      hold. *)
Inductive fs_entry :=
| File (writable : bool) (data : bytes)
| Unreadable (errno : nat) (strerror : string)
| Faulty (writable : bool) (errno : nat) (strerror : string)
| Link (target : string).

Inductive open_mode := RB | RPlusB.

(** An argument of [print]. *)
Inductive pyobj :=
| OStr (s : string)
| OExn (e : exn).

Inductive out_event :=
| Print (args : list pyobj)
| Prompt (text : string).

(** Ghost events, kept next to the real state to say what the run did:
    which files it opened and how, which line indices a scan tested, and
    which files [cr_cleaner] was called on. *)
Inductive event :=
| EvOpen (path : string) (mode : open_mode)
| EvTest (path : string) (i : nat)
| EvClean (path : string).

(** The world of a run: the directory found at a path, the entry of the
    file system at a path that is no directory, the lines waiting on the
    input, what was printed, and the ghost events. *)
Record world := World {
  dirs : gmap string dirtree;
  files : gmap string fs_entry;
  stdin : list string;
  stdout : list out_event;
  trace : list event
}.

Inductive result (A : Type) :=
| Ok (a : A)
| Raise (e : exn).
Arguments Ok {A} a.
Arguments Raise {A} e.

Definition M (A : Type) : Type := world → result A * world.

Definition ret {A} (a : A) : M A := fun w => (Ok a, w).

Definition raise {A} (e : exn) : M A := fun w => (Raise e, w).

Definition bind {A B} (m : M A) (k : A → M B) : M B :=
  fun w =>
    match m w with
    | (Ok a, w') => k a w'
    | (Raise e, w') => (Raise e, w')
    end.

#[global] Instance M_ret : MRet M := @ret.
#[global] Instance M_bind : MBind M := fun A B k m => bind m k.

(** [try: body / except Exception as e: handler e] *)
Definition try_except {A} (body : M A) (handler : exn → M A) : M A :=
  fun w =>
    match body w with
    | (Ok a, w') => (Ok a, w')
    | (Raise e, w') => handler e w'
    end.

Definition log (ev : event) : M unit :=
  fun w => (Ok tt, World (dirs w) (files w) (stdin w) (stdout w) (trace w ++ [ev])).

Definition emit (o : out_event) : M unit :=
  fun w => (Ok tt, World (dirs w) (files w) (stdin w) (stdout w ++ [o]) (trace w)).

(** [print(args)] with the arguments as a list. *)
Definition print (args : list pyobj) : M unit := emit (Print args).

(** [input(prompt)]: shows the prompt and reads one line. *)
Definition input (prompt : string) : M string :=
  emit (Prompt prompt);;
  (fun w =>
     match stdin w with
     | [] => (Raise EOFError, w)
     | a :: rest => (Ok a, World (dirs w) (files w) rest (stdout w) (trace w))
     end) : M string.

(** Reading a local variable: an error while no value is bound to it. *)
Definition load_fast {A} (name : string) (slot : option A) : M A :=
  match slot with
  | Some v => ret v
  | None => raise (UnboundLocalError name)
  end.

(** ** Binary file objects *)

Record fileobj := FileObj {
  f_name : string;
  f_mode : open_mode;
  f_buf : bytes;
  f_pos : nat
}.

(** The path where the file named by [path] lies, links followed: at most
    [hops] of them, as the operating system gives up on longer chains. *)
Fixpoint resolve_from (fs : gmap string fs_entry) (hops : nat) (path : string)
  : option string :=
  match fs !! path with
  | Some (Link target) =>
      match hops with
      | O => None
      | S hops' => resolve_from fs hops' target
      end
  | _ => Some path
  end.

Definition resolve (fs : gmap string fs_entry) (path : string) : option string :=
  resolve_from fs 40 path.

(** The path holds a NUL character. *)
Definition has_nul (path : string) : bool :=
  Str.contains path (String Ascii.zero EmptyString).

(** A file object on a file, unless the mode asks to write a file that
    cannot be written. *)
Definition opened_file (path : string) (mode : open_mode) (writable : bool)
    (data : bytes) : result fileobj :=
  match mode, writable with
  | RPlusB, false => Raise (OSError 13 "Permission denied" path)
  | _, _ => Ok (FileObj path mode data 0)
  end.

(** What [open(path, mode)] returns or raises.  No file system holds a
    name with a NUL character: for such a path nothing is found, and [open]
    raises [ValueError] before it asks the operating system. *)
Definition opened (w : world) (path : string) (mode : open_mode) : result fileobj :=
  match resolve (files w) path with
  | None => Raise (OSError 40 "Too many levels of symbolic links" path)
  | Some real =>
      match files w !! real with
      | Some (File writable data) => opened_file path mode writable data
      | Some (Faulty writable _ _) => opened_file path mode writable []
      | Some (Unreadable errno strerror) => Raise (OSError errno strerror path)
      | Some (Link _) => Raise (OSError 40 "Too many levels of symbolic links" path)
      | None =>
          if has_nul path then Raise (ValueError "embedded null byte")
          else if bool_decide (is_Some (dirs w !! real))
          then Raise (OSError 21 "Is a directory" path)
          else Raise (OSError 2 "No such file or directory" path)
      end
  end.

(** [open(path, mode)] for the two modes the module uses; neither creates
    nor truncates the file. *)
Definition open (path : string) (mode : open_mode) : M fileobj :=
  log (EvOpen path mode);;
  (fun w => (opened w path mode, w)) : M fileobj.

(** Leaving the [with] block closes the file: what was written through a
    writable file object is then the data of the file, where it lies. *)
Definition close (f : fileobj) : M unit :=
  fun w =>
    match f_mode f, resolve (files w) (f_name f) with
    | RPlusB, Some real =>
        (Ok tt, World (dirs w) (<[real := File true (f_buf f)]> (files w))
                  (stdin w) (stdout w) (trace w))
    | _, _ => (Ok tt, w)
    end.

(** The error of a read on the open file at [path], if it fails. *)
Definition read_error (w : world) (path : string) : option exn :=
  match resolve (files w) path with
  | Some real =>
      match files w !! real with
      | Some (Faulty _ errno strerror) => Some (OSError_read errno strerror)
      | _ => None
      end
  | None => None
  end.

(** [f.readlines()]: the lines from the position to the end. *)
Definition readlines (f : fileobj) : list bytes * fileobj :=
  (Bytes.splitlines (drop (f_pos f) (f_buf f)),
   FileObj (f_name f) (f_mode f) (f_buf f) (f_pos f `max` length (f_buf f))).

(** [f.readlines()] on the open file: it raises when the content cannot
    be read. *)
Definition f_readlines (f : fileobj) : M (list bytes * fileobj) :=
  fun w =>
    match read_error w (f_name f) with
    | Some e => (Raise e, w)
    | None => (Ok (readlines f), w)
    end.

(** [f.seek(n)] *)
Definition seek (f : fileobj) (n : nat) : fileobj :=
  FileObj (f_name f) (f_mode f) (f_buf f) n.

(** The bytes before [n], with zeros up to [n] past the end. *)
Definition upto (n : nat) (buf : bytes) : bytes :=
  take n buf ++ replicate (n - length buf) x00.

(** [f.write(data)]: overwrites from the position on, growing the file when
    it runs past the end; returns the number of bytes written. *)
Definition write (f : fileobj) (data : bytes) : nat * fileobj :=
  (length data,
   FileObj (f_name f) (f_mode f)
     (upto (f_pos f) (f_buf f) ++ data ++ drop (f_pos f + length data) (f_buf f))
     (f_pos f + length data)).

(** [f.truncate()]: the file ends at the position. *)
Definition truncate (f : fileobj) : fileobj :=
  FileObj (f_name f) (f_mode f) (upto (f_pos f) (f_buf f)) (f_pos f).

(** ** The module *)

Definition TARGET_FILES : list string := [".py"].
Definition IGNORE_FOLDERS : list string :=
  ["site-packages"; "node_modules"; ".git"; "venv"; ".env"; ".vscode"; ".idea"].

(** The loop of [is_valid_path] over the folders still to be tried. *)
Fixpoint is_valid_path_from (ignore : list string) (filepath : string) : bool :=
  match ignore with
  | [] => true
  | ign_dir :: rest =>
      if Str.contains filepath ign_dir then false
      else is_valid_path_from rest filepath
  end.

Definition is_valid_path (filepath : string) : bool :=
  is_valid_path_from IGNORE_FOLDERS filepath.

(** [os.walk(top)], top-down, on the directory [t] found at [top]: one
    triple [(cur_dir, sub_dirs, sub_files)] per directory walked. *)
Fixpoint os_walk (top : string) (t : dirtree)
  : list (string * list string * list string) :=
  match t with
  | Unlisted => []
  | Dir sub_dirs sub_files =>
      (top, map fst sub_dirs, sub_files) ::
      flat_map (fun d => os_walk (os_path.join top d.1) d.2) sub_dirs
  end.

(** [os.walk(init_path)] in a world, for a path of the file system (a
    string without NUL character); nothing when there is no directory at
    [init_path]. *)
Definition walk (w : world) (init_path : string)
  : list (string * list string * list string) :=
  match dirs w !! init_path with
  | Some t => os_walk init_path t
  | None => []
  end.

(** [enumerate(l, start)]; the start is 0 when omitted. *)
Fixpoint enumerate_from {A} (start : nat) (l : list A) : list (nat * A) :=
  match l with
  | [] => []
  | x :: l' => (start, x) :: enumerate_from (S start) l'
  end.

Definition enumerate {A} (l : list A) : list (nat * A) := enumerate_from 0 l.

(** The body of the loop of [cr_cleaner] up to the [write]. *)
Definition clean_line (line : bytes) : bytes :=
  if Bytes.endswith line CRLF then Bytes.replace line CRLF NL else line.

(** The body of the [with] block of [cr_cleaner] after the lines are
    read. *)
Definition write_lines (new_f : list bytes) (f : fileobj) : fileobj :=
  let f := seek f 0 in
  let f := foldl (fun f line => (write f (clean_line line)).2) f new_f in
  truncate f.

(** The body of the [with] block of [cr_cleaner], on a file that can be
    read. *)
Definition rewrite_lines (f : fileobj) : fileobj :=
  let '(new_f, f) := readlines f in
  write_lines new_f f.

(** [str(f)] of a file object, as an f-string field prints it. *)
Definition str_fileobj (f : fileobj) : string :=
  "<_io.BufferedRandom name='" +:+ f_name f +:+ "'>".

Definition nl : string := String (ascii_of_byte x0a) "".

(** [with open(path, mode) as f: body].  Once the file is open, the bodies
    in this module raise only when its lines cannot be read, before anything
    is written: then nothing is left to write on the way out. *)
Definition with_open {A} (path : string) (mode : open_mode)
    (body : fileobj → M (A * fileobj)) : M A :=
  f ← open path mode;
  r ← body f;
  close r.2;;
  mret r.1.

Section Module_.

(** [__file__], the path the module was loaded from. *)
Variable module_file : string.

Definition is_valid (filename : string) : pyval :=
  let app_file_name := os_path.split_tail module_file in
  if String.eqb filename app_file_name then PyBool false
  else
    let file_ext := os_path.splitext_ext filename in
    if existsb (String.eqb file_ext) TARGET_FILES then PyBool true
    else PyNone.

(** What [walker] yields while [os.walk] is at one directory. *)
Definition walker_dir (entry : string * list string * list string) : list string :=
  let '(cur_dir, sub_dirs, sub_files) := entry in
  if negb (is_valid_path cur_dir) then []
  else flat_map (fun fname =>
         if truthy (is_valid fname) then [os_path.join cur_dir fname] else [])
       sub_files.

(** The paths [walker(init_path)] yields, in order. *)
Definition walker (w : world) (init_path : string) : list string :=
  flat_map walker_dir (walk w init_path).

(** The [for] loop of [cr_infile_searching] over the lines still to come;
    the result is what the function returns, at line 90 or at line 91. *)
Fixpoint scan_lines (file_name : string) (verbose has_cr : bool)
    (lines : list (nat * bytes)) : M bool :=
  match lines with
  | [] => mret has_cr
  | (i, line) :: rest =>
      log (EvTest file_name i);;
      if Bytes.endswith line CRLF then
        if verbose then
          print [OStr ("Win32 style file: " +:+ file_name +:+ ". LINE #"
                       +:+ Str.of_nat i +:+ ": " +:+ Bytes.repr line)];;
          scan_lines file_name verbose true rest
        else mret true
      else scan_lines file_name verbose has_cr rest
  end.

Definition cr_infile_searching (file_name : string) (verbose : bool) : M pyval :=
  try_except
    (with_open file_name RB (fun f =>
       r ← f_readlines f;
       has_cr ← scan_lines file_name verbose false (enumerate r.1);
       mret (PyBool has_cr, r.2)))
    (fun e =>
       print [OStr ("Cant read file: " +:+ file_name +:+ "." +:+ nl); OExn e];;
       mret PyNone).

Definition cr_cleaner (file_name : string) (safe_mode : bool) : M pyval :=
  log (EvClean file_name);;
  (* the local [f] has no value before the [with] statement *)
  let f : option fileobj := None in
  proceed ← (if safe_mode then
               f ← load_fast "f" f;
               a ← input ("Clear CR from: " +:+ str_fileobj f +:+ "? [Y / N]");
               mret (String.eqb (Str.first1 (Str.lower a)) "y")
             else mret true);
  if proceed : bool then
    with_open file_name RPlusB (fun f =>
      r ← f_readlines f;
      mret (PyNone, write_lines r.1 r.2))
  else mret PyNone.

(** The loop of [cr_finder] over the paths the walker still yields. *)
Fixpoint cr_finder_loop (paths : list string)
    (only_inspect verbose safe_mode : bool) : M unit :=
  match paths with
  | [] => mret tt
  | file_path :: rest =>
      has_cr ← cr_infile_searching file_path verbose;
      (if truthy has_cr && negb only_inspect
       then cr_cleaner file_path safe_mode;; mret tt
       else mret tt);;
      cr_finder_loop rest only_inspect verbose safe_mode
  end.

(** The walker is a generator, so the loop body runs between its steps;
    it reads only [dirs], which no step of the loop changes. *)
Definition cr_finder (init_dir : string)
    (only_inspect verbose safe_mode : bool) : M pyval :=
  fun w =>
    (cr_finder_loop (walker w init_dir) only_inspect verbose safe_mode;;
     mret PyNone) w.

End Module_.

(** The scenario of the specification: [/tmp/x] holds [a.py] and [b.txt]. *)
Definition demo_world : world :=
  World {[ "/tmp/x" := Dir [] ["a.py"; "b.txt"] ]}
        {[ "/tmp/x/a.py" := File true (b "print(1)" ++ CRLF ++ b "print(2)" ++ NL);
           "/tmp/x/b.txt" := File true (b "ok" ++ CRLF) ]}
        [] [] [].

Definition demo_file : string := "/opt/hets/modules/cr_cleaner.py".

(** ** Vocabulary of the properties and sample worlds *)

(** A line that ends in its only [\n]. *)
Definition terminated (l : bytes) : Prop := ∃ body, l = body ++ [LF] ∧ LF ∉ body.

(** A last line without [\n]. *)
Definition unterminated (l : bytes) : Prop := l ≠ [] ∧ LF ∉ l.

(** The shape of what [readlines] returns. *)
Inductive lines_ok : list bytes → Prop :=
| lines_ok_nil : lines_ok []
| lines_ok_last l : unterminated l → lines_ok [l]
| lines_ok_cons l ls : terminated l → lines_ok ls → lines_ok (l :: ls).

(** The content [cr_cleaner] leaves in a file that held [data]. *)
Definition cr_cleaner_content (data : bytes) : bytes :=
  f_buf (rewrite_lines (FileObj "" RPlusB data 0)).

(** The lines of [data] after the loop body was applied to each. *)
Definition cleaned (data : bytes) : bytes :=
  concat (map clean_line (Bytes.splitlines data)).

(** [l'] is the line [l] with a terminating CR+LF replaced by LF: the
    bytes before it are kept, and a line that does not end with CR+LF is
    kept whole. *)
Definition line_cleaned (l l' : bytes) : Prop :=
  (∃ body, l = body ++ [CR; LF] ∧ l' = body ++ [LF])
  ∨ ((∀ body, l ≠ body ++ [CR; LF]) ∧ l' = l).

(** [new] is [old] with this done to each of its lines, in order. *)
Definition content_cleaned (old new : bytes) : Prop :=
  ∃ ls ls',
    lines_ok ls ∧ old = concat ls ∧ new = concat ls' ∧ Forall2 line_cleaned ls ls'.

(** No line of [data] ends with [suf]. *)
Definition no_line_endswith (suf data : bytes) : bool :=
  forallb (fun l => negb (Bytes.endswith l suf)) (Bytes.splitlines data).

Definition crcrlf_world : world :=
  World ∅ {[ "a.py" := File true (b "x" ++ [CR; CR; LF]) ]} [] [] [].

(** A writable file with lines of both kinds. *)
Definition mixed_world : world :=
  World ∅ {[ "a.py" := File true (b "a" ++ CRLF ++ b "b" ++ NL ++ b "c" ++ CRLF) ]}
        [] [] [].

(** The world with more output and more ghost events, and nothing else
    changed. *)
Definition extend (w : world) (out : list out_event) (evs : list event) : world :=
  World (dirs w) (files w) (stdin w) (stdout w ++ out) (trace w ++ evs).

(** The diagnostic of the verbose scan for line [i]. *)
Definition diagnostic (file_name : string) (p : nat * bytes) : out_event :=
  Print [OStr ("Win32 style file: " +:+ file_name +:+ ". LINE #"
               +:+ Str.of_nat p.1 +:+ ": " +:+ Bytes.repr p.2)].

(** The lines that end with CR+LF, with their indices. *)
Definition crlf_lines (start : nat) (lines : list bytes) : list (nat * bytes) :=
  List.filter (fun p => Bytes.endswith p.2 CRLF) (enumerate_from start lines).

(** The tests of the lines [start], ..., [start + n - 1] of a file. *)
Definition tests (file_name : string) (start n : nat) : list event :=
  map (EvTest file_name) (seq start n).

(** The message printed for a file that could not be read. *)
Definition cant_read (file_name : string) (e : exn) : out_event :=
  Print [OStr ("Cant read file: " +:+ file_name +:+ "." +:+ nl); OExn e].

(** The entry a path leads to, links followed. *)
Definition entry_at (fs : gmap string fs_entry) (path : string) : option fs_entry :=
  match resolve fs path with
  | Some real => fs !! real
  | None => None
  end.

(** The path where the file named by [path] lies; the path itself when its
    links lead nowhere. *)
Definition real_path (fs : gmap string fs_entry) (path : string) : string :=
  default path (resolve fs path).

(** The target of an entry that is a link. *)
Definition link_of (e : option fs_entry) : option string :=
  match e with
  | Some (Link target) => Some target
  | _ => None
  end.

(** [with open(file_name, 'rb') as f: f.readlines()]: what the inspection
    does to get the lines of a file. *)
Definition read_all (file_name : string) : M (list bytes) :=
  with_open file_name RB (fun f => f_readlines f).

(** The exception of opening the file at [path] in [mode] and reading its
    lines, when the file cannot be opened or read. *)
Definition failure (w : world) (path : string) (mode : open_mode) : option exn :=
  match opened w path mode with
  | Raise e => Some e
  | Ok _ => read_error w path
  end.

Definition read_failure (w : world) (path : string) : option exn :=
  failure w path RB.

(** A file with three lines; the first and the last end with CR+LF. *)
Definition three_lines : bytes := b "a" ++ CRLF ++ b "b" ++ NL ++ b "c" ++ CRLF.

Definition three_lines_world : world :=
  World ∅ {[ "t.py" := File false three_lines ]} [] [] [].

(** Two paths, the first of which is not there. *)
Definition missing_world : world :=
  World ∅ {[ "b.py" := File true (b "ok" ++ CRLF) ]} [] [] [].

(** Two paths, the first of which opens and cannot be read. *)
Definition faulty_world : world :=
  World ∅ {[ "a.py" := Faulty true 5 "Input/output error";
             "b.py" := File true (b "ok" ++ CRLF) ]} [] [] [].

(** Events of a run that only reads: opening a file for reading and testing
    a line. *)
Definition read_only_event (ev : event) : bool :=
  match ev with
  | EvOpen _ RB | EvTest _ _ => true
  | EvOpen _ RPlusB | EvClean _ => false
  end.

(** A file with a CR+LF line and an answer waiting on the input. *)
Definition safe_world (answer : string) : world :=
  World ∅ {[ "a.py" := File true (b "ok" ++ CRLF) ]} [answer] [] [].

(** A name a directory entry can have: not empty, without a slash. *)
Definition entry_name (n : string) : bool :=
  negb (String.eqb n "") && negb (Str.contains n "/").

(** Every entry of the tree has such a name. *)
Fixpoint names_ok (t : dirtree) : bool :=
  match t with
  | Unlisted => true
  | Dir sub_dirs sub_files =>
      forallb (fun d => entry_name d.1 && names_ok d.2) sub_dirs
      && forallb entry_name sub_files
  end.

(** [reaches top t D tD]: walking [t] from [top], [os.walk] comes to the
    directory [tD] under the path [D]. *)
Inductive reaches : string → dirtree → string → dirtree → Prop :=
| reaches_top top t : reaches top t top t
| reaches_sub top sub_dirs sub_files n sub D tD :
    (n, sub) ∈ sub_dirs →
    reaches (os_path.join top n) sub D tD →
    reaches top (Dir sub_dirs sub_files) D tD.

(** A project with a [.git] directory that has a sub-directory. *)
Definition git_tree : dirtree :=
  Dir [(".git", Dir [("hooks", Dir [] ["pre-commit.py"])] ["config.py"]);
       ("src", Dir [] ["main.py"])]
      ["setup.py"].

Definition git_world : world := World {[ "/proj" := git_tree ]} ∅ [] [] [].

(** ** Vocabulary of the further properties *)

(** The path an event is about. *)
Definition event_path (ev : event) : string :=
  match ev with
  | EvOpen path _ | EvTest path _ | EvClean path => path
  end.

(** [w'] has the directories of [w], the same paths in its file map and
    the same links, and differs from [w] in the files that lie at [paths] at
    most. *)
Definition same_files_but (paths : list string) (w w' : world) : Prop :=
  dirs w' = dirs w
  ∧ dom (files w') = dom (files w)
  ∧ (∀ p, link_of (files w' !! p) = link_of (files w !! p))
  ∧ ∀ p, p ∉ paths → files w' !! p = files w !! p.

(** A directory with a file, a second name of that file, and a link to a
    file outside the directory. *)
Definition links_world : world :=
  World {[ "/tmp/x" := Dir [] ["a.py"; "b.py"; "c.py"] ]}
        {[ "/tmp/x/a.py" := File true (b "print(1)" ++ CRLF);
           "/tmp/x/b.py" := Link "/tmp/x/a.py";
           "/tmp/x/c.py" := Link "/tmp/out.txt";
           "/tmp/out.txt" := File true (b "ok" ++ CRLF);
           "/tmp/other.txt" := File true (b "no" ++ CRLF) ]}
        [] [] [].

(** The string is made of dots only. *)
Fixpoint only_dots (s : string) : bool :=
  match s with
  | EmptyString => true
  | String c s' => Ascii.eqb c "." && only_dots s'
  end.

(** The content has a line that ends with CR+LF. *)
Definition has_crlf_line (data : bytes) : bool :=
  existsb (fun l => Bytes.endswith l CRLF) (Bytes.splitlines data).

(** ** The command line *)

Module posixpath.

(** [s[:n]] for [0 <= n]. *)
Fixpoint take (n : nat) (s : string) : string :=
  match n, s with
  | S n', String c s' => String c (take n' s')
  | _, _ => EmptyString
  end.

(** [s.split('/')] *)
Fixpoint split_sep (s : string) : list string :=
  match s with
  | EmptyString => [EmptyString]
  | String c s' =>
      if Ascii.eqb c "/" then EmptyString :: split_sep s'
      else match split_sep s' with
           | [] => [String c EmptyString]
           | x :: xs => String c x :: xs
           end
  end.

(** [s.rstrip('/')] *)
Fixpoint rstrip_sep (s : string) : string :=
  match s with
  | EmptyString => EmptyString
  | String c s' =>
      match rstrip_sep s' with
      | EmptyString => if Ascii.eqb c "/" then EmptyString else String c EmptyString
      | r => String c r
      end
  end.

(** [s == '/' * len(s)] *)
Fixpoint all_sep (s : string) : bool :=
  match s with
  | EmptyString => true
  | String c s' => Ascii.eqb c "/" && all_sep s'
  end.

(** [os.path.split(p)[0]] *)
Definition split_head (p : string) : string :=
  let i := Z.to_nat (Str.rfind p "/" + 1) in
  let head := take i p in
  if negb (String.eqb head "") && negb (all_sep head) then rstrip_sep head else head.

(** One turn of the loop of [normpath] over the components. *)
Definition normpath_step (initial_slashes : nat) (new_comps : list string)
    (comp : string) : list string :=
  if String.eqb comp "" || String.eqb comp "." then new_comps
  else if negb (String.eqb comp "..")
          || (Nat.eqb initial_slashes 0 && bool_decide (new_comps = []))
          || (negb (bool_decide (new_comps = []))
              && bool_decide (last new_comps = Some ".."))
  then new_comps ++ [comp]
  else removelast new_comps.

(** [os.path.normpath(path)] *)
Definition normpath (path : string) : string :=
  if String.eqb path "" then "."
  else
    let initial_slashes :=
      if String.prefix "/" path
      then if String.prefix "//" path && negb (String.prefix "///" path) then 2 else 1
      else 0 in
    let comps := fold_left (normpath_step initial_slashes) (split_sep path) [] in
    let path := String.concat "/" comps in
    let path := String.concat "" (replicate initial_slashes "/") +:+ path in
    if String.eqb path "" then "." else path.

(** [os.path.abspath(path)] in a process whose working directory is
    [getcwd]. *)
Definition abspath (getcwd path : string) : string :=
  normpath (if String.prefix "/" path then path else os_path.join getcwd path).

End posixpath.

(** [os.path.isdir(path)] and [os.path.exists(path)] *)
Definition isdir (w : world) (path : string) : bool :=
  bool_decide (is_Some (dirs w !! path)).

Definition exists_ (w : world) (path : string) : bool :=
  isdir w path || bool_decide (is_Some (entry_at (files w) path)).

(** The exceptions that can leave the script: those of the functions of the
    module, the [IndexError] of [sys.argv[i+2]] and the [FileNotFoundError]
    the script raises itself. *)
Inductive main_exn :=
| ModuleExn (e : exn)
| IndexError
| FileNotFoundError (msg : string).

Inductive outcome (A : Type) :=
| Returned (a : A)
| Raised (e : main_exn).
Arguments Returned {A} a.
Arguments Raised {A} e.

Definition Main (A : Type) : Type := world → outcome A * world.

Definition and_then {A B} (m : Main A) (k : A → Main B) : Main B :=
  fun w =>
    match m w with
    | (Returned a, w') => k a w'
    | (Raised e, w') => (Raised e, w')
    end.

(** A call of a function of the module from the script. *)
Definition call {A} (m : M A) : Main A :=
  fun w =>
    match m w with
    | (Ok a, w') => (Returned a, w')
    | (Raise e, w') => (Raised (ModuleExn e), w')
    end.

(** The variables the script sets while it reads its arguments. *)
Record locals := Locals {
  l_verbose : bool;
  l_safe_mode : bool;
  l_only_inspect : bool;
  l_clear_task_flag : bool;
  l_cwd : string
}.

(** Which branch of the [if] chain an argument takes. *)
Inductive flag := FlagAll | FlagFile | FlagVerbose | FlagSafe | FlagInspect | NoFlag.

Definition classify (arg : string) : flag :=
  if String.eqb (Str.lower arg) "-a" || String.eqb arg "--all" then FlagAll
  else if String.eqb (Str.lower arg) "-f" || String.eqb arg "--file" then FlagFile
  else if String.eqb (Str.lower arg) "-v" || String.eqb arg "--verbose" then FlagVerbose
  else if String.eqb (Str.lower arg) "-s" || String.eqb arg "--safe_mode" then FlagSafe
  else if String.eqb (Str.lower arg) "-i" || String.eqb arg "--inspect" then FlagInspect
  else NoFlag.

Section Script.

(** [__file__], [__doc__], and [os.getcwd()] of the process. *)
Variables (module_file module_doc getcwd : string).

Definition usage : M unit := print [OStr module_doc].

(** The warning printed when a second [-a] or [-f] is met. *)
Definition warn_conflict (clear_task_flag : bool) : Main unit :=
  if clear_task_flag
  then call (print [OStr "Can not setup -a and -f flags for 1 command"])
  else fun w => (Returned tt, w).

(** The body of the loop over [enumerate(sys.argv[1:])]. *)
Definition parse_arg (argv : list string) (i : nat) (arg : string) (st : locals)
  : Main locals :=
  match classify arg with
  | FlagAll =>
      and_then (warn_conflict (l_clear_task_flag st)) (fun _ =>
      let current_file := posixpath.abspath getcwd module_file in
      let cwd := posixpath.split_head current_file in
      fun w => (Returned (Locals (l_verbose st) (l_safe_mode st) (l_only_inspect st)
                            true cwd), w))
  | FlagFile =>
      and_then (warn_conflict (l_clear_task_flag st)) (fun _ =>
      match argv !! (i + 2) with
      | None => fun w => (Raised IndexError, w)
      | Some cwd =>
          fun w =>
            if exists_ w cwd
            then (Returned (Locals (l_verbose st) (l_safe_mode st) (l_only_inspect st)
                              true cwd), w)
            else (Raised (FileNotFoundError ("Can't find path: " +:+ cwd +:+ ".")), w)
      end)
  | FlagVerbose =>
      fun w => (Returned (Locals true (l_safe_mode st) (l_only_inspect st)
                            (l_clear_task_flag st) (l_cwd st)), w)
  | FlagSafe =>
      fun w => (Returned (Locals (l_verbose st) true (l_only_inspect st)
                            (l_clear_task_flag st) (l_cwd st)), w)
  | FlagInspect =>
      fun w => (Returned (Locals true (l_safe_mode st) true
                            (l_clear_task_flag st) (l_cwd st)), w)
  | NoFlag => fun w => (Returned st, w)
  end.

(** The loop over the arguments still to come. *)
Fixpoint parse_args (argv : list string) (args : list (nat * string)) (st : locals)
  : Main locals :=
  match args with
  | [] => fun w => (Returned st, w)
  | (i, arg) :: rest =>
      and_then (parse_arg argv i arg st) (fun st' => parse_args argv rest st')
  end.

(** What the script does once the arguments are read. *)
Definition run (st : locals) : Main unit :=
  fun w =>
    if isdir w (l_cwd st)
    then call (cr_finder module_file (l_cwd st) (l_only_inspect st) (l_verbose st)
                 (l_safe_mode st) ;; mret tt) w
    else
      and_then
        (if l_verbose st
         then call (cr_infile_searching (l_cwd st) (l_verbose st) ;; mret tt)
         else fun w => (Returned tt, w))
        (fun _ =>
           if negb (l_only_inspect st)
           then call (cr_cleaner (l_cwd st) (l_safe_mode st) ;; mret tt)
           else fun w => (Returned tt, w)) w.

(** The script: the block under [if __name__ == "__main__"], for
    [sys.argv = argv]. *)
Definition main (argv : list string) : Main unit :=
  if 1 <? length argv
  then and_then (parse_args argv (enumerate (drop 1 argv))
                   (Locals false false false false ""))
                run
  else call usage.

End Script.

(** The argument names the root: it takes the [-a] or the [-f] branch. *)
Definition names_root (arg : string) : bool :=
  match classify arg with
  | FlagAll | FlagFile => true
  | _ => false
  end.

(** The argument takes the [-i] branch. *)
Definition is_inspect_flag (arg : string) : bool :=
  match classify arg with
  | FlagInspect => true
  | _ => false
  end.

(** The exceptions of the loop over the arguments. *)
Definition parse_error (e : main_exn) : Prop :=
  e = IndexError ∨ ∃ msg, e = FileNotFoundError msg.

(** A world with a text file outside any directory that is walked. *)
Definition txt_world : world :=
  World {[ "/tmp/x" := Dir [] ["a.py"] ]}
        {[ "/tmp/x/a.py" := File true (b "print(1)" ++ CRLF);
           "/tmp/b.txt" := File true (b "ok" ++ CRLF ++ b "fine" ++ NL) ]}
        [] [] [].

(** * Properties *)

(** ** Sample runs *)

Example splitlines_ex :
  Bytes.splitlines (b "print(1)" ++ CRLF ++ b "print(2)" ++ NL ++ b "x")
  = [b "print(1)" ++ CRLF; b "print(2)" ++ NL; b "x"].
Proof. reflexivity. Qed.

Example replace_ex :
  Bytes.replace (b "a" ++ CRLF ++ CRLF ++ [CR] ++ b "b") CRLF NL
  = b "a" ++ NL ++ NL ++ [CR] ++ b "b".
Proof. reflexivity. Qed.

Example replace_empty_ex : Bytes.replace (b "abc") [] (b "-") = b "-a-b-c-".
Proof. reflexivity. Qed.

Example endswith_ex :
  Bytes.endswith (b "ok" ++ CRLF) CRLF = true ∧ Bytes.endswith NL CRLF = false.
Proof. split; reflexivity. Qed.

Example repr_ex : Bytes.repr (b "ok" ++ CRLF) = "b'ok\r\n'".
Proof. reflexivity. Qed.

Example contains_ex :
  Str.contains "/proj/.git/hooks" ".git" = true ∧ Str.contains "/proj/src" ".git" = false.
Proof. split; reflexivity. Qed.

Example join_ex :
  os_path.join "/tmp/x" "a.py" = "/tmp/x/a.py" ∧ os_path.join "/" "a.py" = "/a.py"
  ∧ os_path.join "" "a.py" = "a.py" ∧ os_path.join "/tmp" "/etc" = "/etc".
Proof. repeat split; reflexivity. Qed.

Example split_tail_ex :
  os_path.split_tail "/opt/modules/cr_cleaner.py" = "cr_cleaner.py"
  ∧ os_path.split_tail "cr_cleaner.py" = "cr_cleaner.py"
  ∧ os_path.split_tail "/opt/" = "".
Proof. repeat split; reflexivity. Qed.

Example splitext_ex :
  os_path.splitext_ext "a.py" = ".py" ∧ os_path.splitext_ext "a.tar.gz" = ".gz"
  ∧ os_path.splitext_ext ".py" = "" ∧ os_path.splitext_ext "..py" = ""
  ∧ os_path.splitext_ext "a" = "" ∧ os_path.splitext_ext "a." = "."
  ∧ os_path.splitext_ext "x.d/a" = "" ∧ os_path.splitext_ext "a.PY" = ".PY".
Proof. repeat split; reflexivity. Qed.

Example str_of_nat_ex : Str.of_nat 0 = "0" ∧ Str.of_nat 12 = "12".
Proof. split; reflexivity. Qed.

Example lower_ex : Str.first1 (Str.lower "Yes") = "y".
Proof. reflexivity. Qed.

Example demo_clean :
  let r := cr_finder demo_file "/tmp/x" false false false demo_world in
  r.1 = Ok PyNone
  ∧ files r.2 !! "/tmp/x/a.py" = Some (File true (b "print(1)" ++ NL ++ b "print(2)" ++ NL))
  ∧ files r.2 !! "/tmp/x/b.txt" = Some (File true (b "ok" ++ CRLF)).
Proof. vm_compute. repeat split; reflexivity. Qed.

Example demo_inspect :
  let r := cr_finder demo_file "/tmp/x" true true false demo_world in
  r.1 = Ok PyNone
  ∧ stdout r.2 = [Print [OStr "Win32 style file: /tmp/x/a.py. LINE #0: b'print(1)\r\n'"]]
  ∧ files r.2 = files demo_world.
Proof. vm_compute. repeat split; reflexivity. Qed.

Example open_errors_ex :
  opened demo_world "/tmp/x" RB = Raise (OSError 21 "Is a directory" "/tmp/x")
  ∧ opened demo_world "/tmp/y" RPlusB
    = Raise (OSError 2 "No such file or directory" "/tmp/y")
  ∧ opened demo_world (String Ascii.zero "a.py") RB
    = Raise (ValueError "embedded null byte")
  ∧ opened three_lines_world "t.py" RPlusB
    = Raise (OSError 13 "Permission denied" "t.py")
  ∧ opened three_lines_world "t.py" RB = Ok (FileObj "t.py" RB three_lines 0).
Proof. vm_compute. repeat split; reflexivity. Qed.

Example read_error_ex :
  let r := cr_infile_searching "a.py" true faulty_world in
  r.1 = Ok PyNone
  ∧ stdout r.2 = [cant_read "a.py" (OSError_read 5 "Input/output error")]
  ∧ (cr_cleaner "a.py" false faulty_world).1
    = Raise (OSError_read 5 "Input/output error")
  ∧ files (cr_cleaner "a.py" false faulty_world).2 = files faulty_world.
Proof. vm_compute. repeat split; reflexivity. Qed.

(** The walker yields links as it yields files, and the rewrite goes to the
    file a link leads to, also outside the directory walked. *)
Example links_ex :
  let r := cr_finder demo_file "/tmp/x" false false false links_world in
  walker demo_file links_world "/tmp/x" = ["/tmp/x/a.py"; "/tmp/x/b.py"; "/tmp/x/c.py"]
  ∧ r.1 = Ok PyNone
  ∧ files r.2 !! "/tmp/x/a.py" = Some (File true (b "print(1)" ++ NL))
  ∧ files r.2 !! "/tmp/x/b.py" = Some (Link "/tmp/x/a.py")
  ∧ files r.2 !! "/tmp/x/c.py" = Some (Link "/tmp/out.txt")
  ∧ files r.2 !! "/tmp/out.txt" = Some (File true (b "ok" ++ NL))
  ∧ files r.2 !! "/tmp/other.txt" = Some (File true (b "no" ++ CRLF)).
Proof. vm_compute. repeat split; reflexivity. Qed.

(** ** Lines of a byte string *)

Lemma byte_eqb_true (x y : byte) : Byte.eqb x y = true ↔ x = y.
Proof. split; [apply Byte.byte_dec_bl | apply Byte.byte_dec_lb]. Qed.

Lemma byte_eqb_false (x y : byte) : Byte.eqb x y = false ↔ x ≠ y.
Proof.
  split; [apply Byte.eqb_false |].
  intros Hne. destruct (Byte.eqb x y) eqn:E; [|done].
  by apply byte_eqb_true in E.
Qed.

Lemma byte_eqb_refl (x : byte) : Byte.eqb x x = true.
Proof. by apply byte_eqb_true. Qed.

Lemma concat_splitlines (s : bytes) : concat (Bytes.splitlines s) = s.
Proof.
  induction s as [|c s IH]; [done|]. simpl.
  destruct (Byte.eqb c LF); simpl; [by rewrite IH|].
  destruct (Bytes.splitlines s) as [|l ls]; simpl in *; by rewrite <- IH.
Qed.

Lemma splitlines_ok (s : bytes) : lines_ok (Bytes.splitlines s).
Proof.
  induction s as [|c s IH]; simpl; [constructor|].
  destruct (Byte.eqb c LF) eqn:E.
  - apply byte_eqb_true in E as ->. apply lines_ok_cons; [|done].
    exists []. split; [done | apply not_elem_of_nil].
  - apply byte_eqb_false in E.
    destruct (Bytes.splitlines s) as [|l ls].
    + apply lines_ok_last. split; [done|].
      apply not_elem_of_cons. split; [done | apply not_elem_of_nil].
    + inversion IH as [|l' [_ Hl]|l' ls' (body & -> & Hb) Hls]; subst.
      * apply lines_ok_last. split; [done|]. by apply not_elem_of_cons.
      * apply lines_ok_cons; [|done].
        exists (c :: body). split; [done|]. by apply not_elem_of_cons.
Qed.

Lemma splitlines_unterminated (l : bytes) : unterminated l → Bytes.splitlines l = [l].
Proof.
  intros [Hne Hl]. induction l as [|c l IH]; [done|]. simpl.
  apply not_elem_of_cons in Hl as [Hc Hl].
  apply not_eq_sym, byte_eqb_false in Hc as ->.
  destruct l as [|c' l]; [done|].
  by rewrite IH.
Qed.

Lemma splitlines_terminated (body rest : bytes) :
  LF ∉ body →
  Bytes.splitlines (body ++ LF :: rest) = (body ++ [LF]) :: Bytes.splitlines rest.
Proof.
  intros Hb. induction body as [|c body IH]; [done|]. simpl.
  apply not_elem_of_cons in Hb as [Hc Hb].
  apply not_eq_sym, byte_eqb_false in Hc as ->.
  by rewrite IH.
Qed.

Lemma splitlines_concat (ls : list bytes) :
  lines_ok ls → Bytes.splitlines (concat ls) = ls.
Proof.
  induction 1 as [|l Hl|l ls (body & -> & Hb) _ IH]; simpl.
  - done.
  - rewrite app_nil_r. by apply splitlines_unterminated.
  - rewrite <- app_assoc. simpl. by rewrite splitlines_terminated, IH.
Qed.

(** ** [endswith] and [replace] on lines *)

Lemma endswith_suffix (s suf : bytes) :
  Bytes.endswith s suf = true ↔ suf `suffix_of` s.
Proof.
  unfold Bytes.endswith. rewrite andb_true_iff, Nat.leb_le, bool_decide_eq_true.
  split.
  - intros [_ Hd]. exists (take (length s - length suf) s).
    by rewrite <- Hd at 2; rewrite take_drop.
  - intros [k ->]. rewrite length_app. split; [lia|].
    replace (length k + length suf - length suf) with (length k) by lia.
    by rewrite drop_app_length.
Qed.

Lemma endswith_crlf_terminated (body : bytes) :
  Bytes.endswith (body ++ [LF]) CRLF = true ↔ last body = Some CR.
Proof.
  rewrite endswith_suffix, last_Some. split.
  - intros [k Hk]. exists k.
    change CRLF with ([CR] ++ [LF]) in Hk. rewrite app_assoc in Hk.
    by apply app_inj_tail in Hk as [-> _].
  - intros [k ->]. exists k. by rewrite <- app_assoc.
Qed.

Lemma endswith_lf (l suf : bytes) :
  Bytes.endswith l (suf ++ [LF]) = true → LF ∈ l.
Proof.
  rewrite endswith_suffix. intros [k ->].
  rewrite !elem_of_app. right. right. apply list_elem_of_singleton. done.
Qed.

Lemma endswith_unterminated (l : bytes) :
  unterminated l → Bytes.endswith l CRLF = false.
Proof.
  intros [_ Hl]. destruct (Bytes.endswith l CRLF) eqn:E; [|done].
  destruct Hl. by apply (endswith_lf l [CR]).
Qed.

(** The equations of [replace] for the pattern [b'\r\n']. *)
Lemma replace_nil : Bytes.replace [] CRLF NL = [].
Proof. done. Qed.

Lemma replace_crlf (s : bytes) :
  Bytes.replace (CR :: LF :: s) CRLF NL = LF :: Bytes.replace s CRLF NL.
Proof. reflexivity. Qed.

Lemma replace_cons (c : byte) (s : bytes) :
  c ≠ CR ∨ head s ≠ Some LF →
  Bytes.replace (c :: s) CRLF NL = c :: Bytes.replace s CRLF NL.
Proof.
  intros H. unfold Bytes.replace. simpl.
  destruct (Byte.eqb c CR) eqn:Ec; simpl; [|done].
  destruct s as [|x s]; [done|].
  destruct (Byte.eqb x LF) eqn:Ex; simpl; [|done].
  apply byte_eqb_true in Ec as ->. apply byte_eqb_true in Ex as ->.
  by destruct H.
Qed.

Lemma head_app_not_in (x y : byte) (body s : bytes) :
  x ∉ body → y ≠ x → head (body ++ y :: s) ≠ Some x.
Proof.
  destruct body as [|c body]; simpl.
  - intros _ Hy [=]. done.
  - intros [Hc _]%not_elem_of_cons _ [=]. done.
Qed.

Lemma replace_no_lf (l : bytes) : LF ∉ l → Bytes.replace l CRLF NL = l.
Proof.
  induction l as [|c l IH]; [done|].
  intros [Hc Hl]%not_elem_of_cons.
  rewrite replace_cons, IH; [done..|].
  right. destruct l as [|x l]; [done|].
  apply not_elem_of_cons in Hl as [Hx _]. intros [=]. done.
Qed.

Lemma replace_body_crlf (body s : bytes) :
  LF ∉ body →
  Bytes.replace (body ++ CR :: LF :: s) CRLF NL = body ++ LF :: Bytes.replace s CRLF NL.
Proof.
  induction body as [|c body IH]; [intros _; apply replace_crlf|].
  intros [Hc Hb]%not_elem_of_cons. rewrite <- app_comm_cons.
  rewrite replace_cons, IH; [done..|].
  right. by apply head_app_not_in.
Qed.

Lemma replace_body_lf (body s : bytes) :
  LF ∉ body → last body ≠ Some CR →
  Bytes.replace (body ++ LF :: s) CRLF NL = body ++ LF :: Bytes.replace s CRLF NL.
Proof.
  induction body as [|c body IH]; intros Hb Hlast.
  - apply replace_cons. by left.
  - apply not_elem_of_cons in Hb as [Hc Hb]. rewrite <- app_comm_cons.
    destruct body as [|x body].
    + rewrite replace_cons; [|left; by intros ->].
      rewrite app_nil_l, replace_cons; [done | by left].
    + rewrite replace_cons, IH; [done..|].
      right. apply not_elem_of_cons in Hb as [Hx _]. intros [=]. done.
Qed.

(** What [clean_line] does to a line, by the way the line ends. *)
Lemma clean_line_crlf (body : bytes) :
  LF ∉ body → clean_line (body ++ [CR; LF]) = body ++ [LF].
Proof.
  intros Hb. unfold clean_line.
  replace (Bytes.endswith (body ++ [CR; LF]) CRLF) with true.
  - by rewrite replace_body_crlf.
  - symmetry. apply endswith_suffix. by exists body.
Qed.

Lemma clean_line_plain (l : bytes) :
  Bytes.endswith l CRLF = false → clean_line l = l.
Proof. unfold clean_line. by intros ->. Qed.

Lemma clean_line_cases (l : bytes) :
  terminated l →
  (∃ body, (LF ∉ body) ∧ l = body ++ [CR; LF] ∧ clean_line l = body ++ [LF])
  ∨ (Bytes.endswith l CRLF = false ∧ clean_line l = l).
Proof.
  intros (body & -> & Hb).
  destruct (Bytes.endswith (body ++ [LF]) CRLF) eqn:E.
  - left. apply endswith_crlf_terminated, last_Some in E as [k ->].
    exists k. rewrite <- app_assoc. simpl.
    split; [|split; [done|]].
    + intros Hk. apply Hb, elem_of_app. by left.
    + apply clean_line_crlf. intros Hk. apply Hb, elem_of_app. by left.
  - right. split; [done|]. by apply clean_line_plain.
Qed.

Lemma clean_line_terminated (l : bytes) : terminated l → terminated (clean_line l).
Proof.
  intros Hl. destruct (clean_line_cases l Hl) as [(body & Hb & _ & ->)|[_ ->]]; [|done].
  by exists body.
Qed.

Lemma clean_lines_ok (ls : list bytes) : lines_ok ls → lines_ok (map clean_line ls).
Proof.
  induction 1 as [|l Hl|l ls Hl _ IH]; simpl.
  - constructor.
  - rewrite clean_line_plain by by apply endswith_unterminated.
    by apply lines_ok_last.
  - apply lines_ok_cons; [by apply clean_line_terminated | done].
Qed.

Lemma replace_from_length (skip : nat) (s : bytes) :
  length (Bytes.replace_from CRLF NL skip s) ≤ length s.
Proof.
  revert skip. induction s as [|c s IH]; intros skip; [done|].
  cbn [Bytes.replace_from]. destruct skip as [|k].
  - destruct (Bytes.startswith (c :: s) CRLF); cbn [length app NL].
    + specialize (IH 1). cbn [length CRLF Nat.sub]. lia.
    + specialize (IH 0). lia.
  - specialize (IH k). cbn [length]. lia.
Qed.

Lemma clean_line_length (l : bytes) : length (clean_line l) ≤ length l.
Proof.
  unfold clean_line. destruct (Bytes.endswith l CRLF); [|done].
  apply replace_from_length.
Qed.

(** ** Writing the lines back *)

Lemma upto_app_length (W T : bytes) : upto (length W) (W ++ T) = W.
Proof.
  unfold upto. rewrite take_app_length, length_app.
  replace (length W - (length W + length T)) with 0 by lia.
  apply app_nil_r.
Qed.

Lemma write_at_end_of_prefix (n : string) (m : open_mode) (W T d : bytes) :
  (write (FileObj n m (W ++ T) (length W)) d).2
  = FileObj n m ((W ++ d) ++ drop (length d) T) (length (W ++ d)).
Proof.
  unfold write. cbn [snd f_name f_mode f_buf f_pos].
  by rewrite upto_app_length, drop_app_add, length_app, <- app_assoc.
Qed.

(** The loop of writes: what is written replaces as many bytes of the old
    content, from the start; what lies beyond stays for [truncate]. *)
Lemma write_loop (n : string) (m : open_mode) (ls : list bytes) :
  ∀ W T,
    foldl (fun f line => (write f (clean_line line)).2)
          (FileObj n m (W ++ T) (length W)) ls
    = let out := concat (map clean_line ls) in
      FileObj n m ((W ++ out) ++ drop (length out) T) (length (W ++ out)).
Proof.
  induction ls as [|l ls IH]; intros W T; cbn [foldl map concat].
  - cbn zeta. by rewrite drop_0, !app_nil_r.
  - rewrite write_at_end_of_prefix, IH. cbn zeta.
    by rewrite drop_drop, <- length_app, <- !app_assoc.
Qed.

Lemma rewrite_lines_eq (n : string) (m : open_mode) (data : bytes) :
  rewrite_lines (FileObj n m data 0) = FileObj n m (cleaned data) (length (cleaned data)).
Proof.
  unfold rewrite_lines, write_lines, readlines, seek, truncate.
  cbn [f_name f_mode f_buf f_pos]. rewrite drop_0.
  pose proof (write_loop n m (Bytes.splitlines data) [] data) as H.
  cbn [app length] in H. rewrite H. cbn zeta. cbn [f_name f_mode f_buf f_pos app].
  fold (cleaned data).
  by rewrite (upto_app_length (cleaned data)).
Qed.

Lemma cr_cleaner_content_eq (data : bytes) : cr_cleaner_content data = cleaned data.
Proof. unfold cr_cleaner_content. by rewrite rewrite_lines_eq. Qed.

Lemma cleaned_lines (data : bytes) :
  Bytes.splitlines (cleaned data) = map clean_line (Bytes.splitlines data).
Proof. apply splitlines_concat, clean_lines_ok, splitlines_ok. Qed.

Lemma concat_map_length_le (f : bytes → bytes) (ls : list bytes) :
  (∀ l, length (f l) ≤ length l) → length (concat (map f ls)) ≤ length (concat ls).
Proof.
  intros Hf. induction ls as [|l ls IH]; simpl; [done|].
  rewrite !length_app. specialize (Hf l). lia.
Qed.

Lemma cleaned_length (data : bytes) : length (cleaned data) ≤ length data.
Proof.
  rewrite <- (concat_splitlines data) at 2.
  apply concat_map_length_le, clean_line_length.
Qed.

(** The guarded replacement on every line is the replacement on the whole
    content. *)
Lemma replace_concat_lines (ls : list bytes) :
  lines_ok ls → Bytes.replace (concat ls) CRLF NL = concat (map clean_line ls).
Proof.
  induction 1 as [|l Hl|l ls Hl _ IH]; cbn [map concat].
  - done.
  - rewrite !app_nil_r, clean_line_plain by by apply endswith_unterminated.
    apply replace_no_lf, Hl.
  - destruct (clean_line_cases l Hl) as [(body & Hb & -> & ->)|[E ->]].
    + rewrite <- !app_assoc. cbn [app]. by rewrite replace_body_crlf, IH.
    + destruct Hl as (body & -> & Hb).
      rewrite <- !app_assoc. cbn [app]. rewrite replace_body_lf, IH; [done..|].
      intros Hlast. apply endswith_crlf_terminated in Hlast. congruence.
Qed.

Lemma lines_ok_elem (ls : list bytes) (l : bytes) :
  lines_ok ls → l ∈ ls → terminated l ∨ unterminated l.
Proof.
  induction 1 as [|l' Hl|l' ls Hl _ IH].
  - by intros ?%elem_of_nil.
  - intros ->%list_elem_of_singleton. by right.
  - intros [->|Hin]%elem_of_cons; [by left | by apply IH].
Qed.

Lemma splitlines_elem (data l : bytes) :
  l ∈ Bytes.splitlines data → terminated l ∨ unterminated l.
Proof. apply lines_ok_elem, splitlines_ok. Qed.

(** A cleaned line still ends in CR+LF exactly when the line ended in
    CR, CR, LF. *)
Lemma clean_line_endswith (l : bytes) :
  terminated l ∨ unterminated l →
  Bytes.endswith (clean_line l) CRLF = Bytes.endswith l [CR; CR; LF].
Proof.
  intros [Hl|Hl].
  - destruct (clean_line_cases l Hl) as [(body & Hb & -> & ->)|[E ->]].
    + apply Bool.eq_true_iff_eq.
      rewrite endswith_crlf_terminated, endswith_suffix, last_Some. split.
      * intros [k ->]. exists k. by rewrite <- app_assoc.
      * intros [k Hk]. exists k.
        change [CR; CR; LF] with ([CR] ++ [CR; LF]) in Hk.
        rewrite app_assoc in Hk. by apply app_inv_tail in Hk.
    + rewrite E. symmetry. apply not_true_is_false.
      rewrite endswith_suffix. intros [k ->].
      apply not_true_iff_false in E. apply E, endswith_suffix.
      exists (k ++ [CR]). by rewrite <- app_assoc.
  - rewrite clean_line_plain by by apply endswith_unterminated.
    rewrite endswith_unterminated by done.
    symmetry. apply not_true_is_false. intros E.
    destruct Hl as [_ Hl]. apply Hl. by apply (endswith_lf l [CR; CR]).
Qed.

Lemma map_id_on {A} (f : A → A) (l : list A) :
  (∀ x, x ∈ l → f x = x) → map f l = l.
Proof.
  induction l as [|x l IH]; intros H; simpl; [done|].
  rewrite H by apply list_elem_of_here.
  rewrite IH; [done|]. intros y Hy. apply H. by apply list_elem_of_further.
Qed.

Lemma no_line_endswith_elem (suf data l : bytes) :
  no_line_endswith suf data = true → l ∈ Bytes.splitlines data →
  Bytes.endswith l suf = false.
Proof.
  unfold no_line_endswith. rewrite forallb_forall.
  intros H Hl%list_elem_of_In. apply negb_true_iff, H, Hl.
Qed.

Lemma cleaned_clean (data : bytes) :
  no_line_endswith CRLF data = true → cleaned data = data.
Proof.
  intros H. unfold cleaned. rewrite map_id_on.
  - apply concat_splitlines.
  - intros l Hl. apply clean_line_plain. by eapply no_line_endswith_elem.
Qed.

Lemma cleaned_no_crlf (data : bytes) :
  no_line_endswith [CR; CR; LF] data = true →
  no_line_endswith CRLF (cleaned data) = true.
Proof.
  intros H. unfold no_line_endswith. rewrite cleaned_lines.
  apply forallb_forall. intros l' [l [<- Hl]]%in_map_iff.
  apply list_elem_of_In in Hl.
  rewrite clean_line_endswith by by eapply splitlines_elem.
  apply negb_true_iff. by eapply no_line_endswith_elem.
Qed.

(** ** The file system *)

Lemma extend_nil (w : world) : extend w [] [] = w.
Proof. destruct w. unfold extend. simpl. by rewrite !app_nil_r. Qed.

Lemma extend_extend (w : world) o1 t1 o2 t2 :
  extend (extend w o1 t1) o2 t2 = extend w (o1 ++ o2) (t1 ++ t2).
Proof. unfold extend. simpl. by rewrite !app_assoc. Qed.

Lemma log_extend (ev : event) (w : world) : log ev w = (Ok tt, extend w [] [ev]).
Proof. unfold log, extend. by rewrite app_nil_r. Qed.

Lemma print_extend (args : list pyobj) (w : world) :
  print args w = (Ok tt, extend w [Print args] []).
Proof. unfold print, emit, extend. by rewrite app_nil_r. Qed.

Lemma bind_ok {A B} (m : M A) (k : A → M B) (w w' : world) (a : A) :
  m w = (Ok a, w') → (m ≫= k) w = k a w'.
Proof. unfold mbind, M_bind, bind. by intros ->. Qed.

Lemma bind_raise {A B} (m : M A) (k : A → M B) (w w' : world) (e : exn) :
  m w = (Raise e, w') → (m ≫= k) w = (Raise e, w').
Proof. unfold mbind, M_bind, bind. by intros ->. Qed.

Lemma resolve_from_direct (fs : gmap string fs_entry) (hops : nat) (path : string) :
  (∀ target, fs !! path ≠ Some (Link target)) →
  resolve_from fs hops path = Some path.
Proof.
  intros Hno. destruct hops; cbn [resolve_from];
    by destruct (fs !! path) as [[| | |target]|] eqn:E; [| | |destruct (Hno target)|].
Qed.

Lemma resolve_file (fs : gmap string fs_entry) (path : string) (writable : bool)
    (data : bytes) :
  fs !! path = Some (File writable data) → resolve fs path = Some path.
Proof. intros Hf. apply resolve_from_direct. intros target. by rewrite Hf. Qed.

Lemma resolve_none (fs : gmap string fs_entry) (path : string) :
  fs !! path = None → resolve fs path = Some path.
Proof. intros Hf. apply resolve_from_direct. intros target. by rewrite Hf. Qed.

Lemma entry_at_file (fs : gmap string fs_entry) (path : string) (writable : bool)
    (data : bytes) :
  fs !! path = Some (File writable data) →
  entry_at fs path = Some (File writable data).
Proof. intros Hf. unfold entry_at. by rewrite (resolve_file _ _ _ _ Hf). Qed.

(** Where a path leads there is no link. *)
Lemma resolve_from_not_link (fs : gmap string fs_entry) (hops : nat) :
  ∀ path real target,
    resolve_from fs hops path = Some real → fs !! real ≠ Some (Link target).
Proof.
  induction hops as [|hops IH]; intros path real target; cbn [resolve_from].
  - destruct (fs !! path) as [[| | |t]|] eqn:E; intros [= <-]; by rewrite E.
  - destruct (fs !! path) as [[| | |t]|] eqn:E; [| | |apply IH|];
      intros [= <-]; by rewrite E.
Qed.

Lemma resolve_idem (fs : gmap string fs_entry) (path real : string) :
  resolve fs path = Some real → resolve fs real = Some real.
Proof.
  intros H. apply resolve_from_direct. intros target.
  by eapply resolve_from_not_link.
Qed.

(** Two file systems with the same links lead every path to the same
    place. *)
Lemma resolve_from_same_links (fs fs' : gmap string fs_entry) :
  (∀ path, link_of (fs' !! path) = link_of (fs !! path)) →
  ∀ hops path, resolve_from fs' hops path = resolve_from fs hops path.
Proof.
  intros Hlinks. induction hops as [|hops IH]; intros path; cbn [resolve_from];
    specialize (Hlinks path);
    destruct (fs !! path) as [[| | |t]|], (fs' !! path) as [[| | |t']|];
    cbn [link_of] in Hlinks; try done; simplify_eq; apply IH.
Qed.

Lemma resolve_same_links (fs fs' : gmap string fs_entry) (path : string) :
  (∀ p, link_of (fs' !! p) = link_of (fs !! p)) →
  resolve fs' path = resolve fs path.
Proof. intros H. by apply resolve_from_same_links. Qed.

Lemma real_path_same_links (fs fs' : gmap string fs_entry) (path : string) :
  (∀ p, link_of (fs' !! p) = link_of (fs !! p)) →
  real_path fs' path = real_path fs path.
Proof. intros H. unfold real_path. by rewrite (resolve_same_links fs fs'). Qed.

(** Writing a file where a path leads moves no link. *)
Lemma insert_file_same_links (fs : gmap string fs_entry) (real : string)
    (writable writable' : bool) (data data' : bytes) :
  fs !! real = Some (File writable data) →
  ∀ p, link_of (<[real := File writable' data']> fs !! p) = link_of (fs !! p).
Proof.
  intros Hf p. destruct (decide (real = p)) as [<-|Hne].
  - by rewrite lookup_insert_eq, Hf.
  - by rewrite lookup_insert_ne.
Qed.

Lemma entry_at_resolve (fs : gmap string fs_entry) (path : string) (e : fs_entry) :
  entry_at fs path = Some e →
  resolve fs path = Some (real_path fs path) ∧ fs !! real_path fs path = Some e.
Proof.
  unfold entry_at, real_path.
  by destruct (resolve fs path) as [real|]; [|done].
Qed.

Lemma real_path_file (fs : gmap string fs_entry) (path : string) (writable : bool)
    (data : bytes) :
  fs !! path = Some (File writable data) → real_path fs path = path.
Proof. intros Hf. unfold real_path. by rewrite (resolve_file _ _ _ _ Hf). Qed.

Lemma real_path_no_link (fs : gmap string fs_entry) (path : string) :
  link_of (fs !! path) = None → real_path fs path = path.
Proof.
  intros Hl. unfold real_path, resolve. rewrite resolve_from_direct; [done|].
  intros target E. by rewrite E in Hl.
Qed.

Lemma open_run (w : world) (path : string) (mode : open_mode) :
  open path mode w = (opened w path mode, extend w [] [EvOpen path mode]).
Proof. unfold open. by rewrite (bind_ok _ _ _ _ _ (log_extend _ _)). Qed.

Lemma opened_at_file (w : world) (path : string) (mode : open_mode)
    (writable : bool) (data : bytes) :
  entry_at (files w) path = Some (File writable data) →
  opened w path mode = opened_file path mode writable data
  ∧ read_error w path = None.
Proof.
  unfold entry_at, opened, read_error.
  destruct (resolve (files w) path) as [real|]; [|done]. by intros ->.
Qed.

Lemma with_open_raises {A} (path : string) (mode : open_mode)
    (body : fileobj → M (A * fileobj)) (w : world) (e : exn) :
  opened w path mode = Raise e →
  with_open path mode body w = (Raise e, extend w [] [EvOpen path mode]).
Proof.
  intros He. unfold with_open.
  rewrite (bind_raise _ _ _ (extend w [] [EvOpen path mode]) e); [done|].
  by rewrite open_run, He.
Qed.

Lemma with_open_body_raises {A} (path : string) (mode : open_mode)
    (body : fileobj → M (A * fileobj)) (w w' : world) (f : fileobj) (e : exn) :
  opened w path mode = Ok f →
  body f (extend w [] [EvOpen path mode]) = (Raise e, w') →
  with_open path mode body w = (Raise e, w').
Proof.
  intros Hf Hb. unfold with_open.
  rewrite (bind_ok _ _ _ (extend w [] [EvOpen path mode]) f)
    by by rewrite open_run, Hf.
  by rewrite (bind_raise _ _ _ _ _ Hb).
Qed.

Lemma with_open_returns {A} (path : string) (mode : open_mode)
    (body : fileobj → M (A * fileobj)) (w w' : world) (f : fileobj)
    (r : A * fileobj) :
  opened w path mode = Ok f →
  body f (extend w [] [EvOpen path mode]) = (Ok r, w') →
  with_open path mode body w = (Ok r.1, (close r.2 w').2).
Proof.
  intros Hf Hb. unfold with_open.
  rewrite (bind_ok _ _ _ (extend w [] [EvOpen path mode]) f)
    by by rewrite open_run, Hf.
  rewrite (bind_ok _ _ _ _ _ Hb).
  unfold mbind, M_bind, bind, close.
  by destruct (f_mode r.2), (resolve (files w') (f_name r.2)).
Qed.

Lemma f_readlines_ok (f : fileobj) (w : world) :
  read_error w (f_name f) = None → f_readlines f w = (Ok (readlines f), w).
Proof. unfold f_readlines. by intros ->. Qed.

Lemma f_readlines_raises (f : fileobj) (w : world) (e : exn) :
  read_error w (f_name f) = Some e → f_readlines f w = (Raise e, w).
Proof. unfold f_readlines. by intros ->. Qed.

Lemma cr_cleaner_unsafe (file_name : string) (w : world) :
  cr_cleaner file_name false w
  = with_open file_name RPlusB
      (fun f => r ← f_readlines f; mret (PyNone, write_lines r.1 r.2))
      (extend w [] [EvClean file_name]).
Proof. unfold cr_cleaner. by rewrite (bind_ok _ _ _ _ _ (log_extend _ _)). Qed.

(** The world after [cr_cleaner file_name] has run on a writable file,
    which lies at [real]. *)
Lemma cr_cleaner_run_at (w : world) (file_name real : string) (data : bytes) :
  resolve (files w) file_name = Some real →
  files w !! real = Some (File true data) →
  cr_cleaner file_name false w
  = (Ok PyNone,
     World (dirs w) (<[real := File true (cleaned data)]> (files w))
       (stdin w) (stdout w) (trace w ++ [EvClean file_name; EvOpen file_name RPlusB])).
Proof.
  intros Hres Hf. rewrite cr_cleaner_unsafe.
  set (w1 := extend w [] [EvClean file_name]).
  assert (entry_at (files w1) file_name = Some (File true data)) as Hentry.
  { unfold entry_at. cbn [w1 extend files]. by rewrite Hres. }
  destruct (opened_at_file w1 file_name RPlusB true data Hentry) as [Ho Hr].
  cbn [opened_file] in Ho.
  rewrite (with_open_returns _ _ _ w1 (extend w1 [] [EvOpen file_name RPlusB])
             (FileObj file_name RPlusB data 0)
             (PyNone, rewrite_lines (FileObj file_name RPlusB data 0)) Ho).
  - cbn [fst snd]. rewrite rewrite_lines_eq. unfold close.
    cbn [f_mode f_name f_buf w1 extend dirs files stdin stdout trace].
    rewrite Hres. cbn [snd]. by rewrite !app_nil_r, <- app_assoc.
  - rewrite (bind_ok _ _ _ _ _
      (f_readlines_ok (FileObj file_name RPlusB data 0)
         (extend w1 [] [EvOpen file_name RPlusB]) Hr)).
    reflexivity.
Qed.

(** The world after [cr_cleaner file_name] has run on a writable file. *)
Lemma cr_cleaner_run (w : world) (file_name : string) (data : bytes) :
  files w !! file_name = Some (File true data) →
  cr_cleaner file_name false w
  = (Ok PyNone,
     World (dirs w) (<[file_name := File true (cleaned data)]> (files w))
       (stdin w) (stdout w) (trace w ++ [EvClean file_name; EvOpen file_name RPlusB])).
Proof.
  intros Hf. apply cr_cleaner_run_at; [by eapply resolve_file | done].
Qed.

(** ** The rewrite: claims C2, C6 and C10 *)

(** C2, as stated, fails: the line [b'x\r\r\n'] is terminated by CR+LF, and
    after [cr_cleaner] the file holds the single line [b'x\r\n'], which ends
    with CR+LF. *)
Lemma cr_cleaner_leaves_crlf :
  let w' := (cr_cleaner "a.py" false crcrlf_world).2 in
  Bytes.splitlines (b "x" ++ [CR; CR; LF]) = [b "x" ++ [CR; CR; LF]]
  ∧ files w' !! "a.py" = Some (File true (b "x" ++ CRLF))
  ∧ Bytes.splitlines (b "x" ++ CRLF) = [b "x" ++ CRLF]
  ∧ Bytes.endswith (b "x" ++ CRLF) CRLF = true.
Proof. vm_compute. repeat split; reflexivity. Qed.

Lemma clean_line_line_cleaned (l : bytes) :
  terminated l ∨ unterminated l → line_cleaned l (clean_line l).
Proof.
  assert (Bytes.endswith l CRLF = false → line_cleaned l (clean_line l)) as Hplain.
  { intros E. right. split; [|by apply clean_line_plain].
    intros body ->. apply not_true_iff_false in E. apply E, endswith_suffix.
    by exists body. }
  intros [Hl|Hl].
  - destruct (clean_line_cases l Hl) as [(body & _ & -> & ->)|[E _]]; [|by apply Hplain].
    left. by exists body.
  - by apply Hplain, endswith_unterminated.
Qed.

Lemma cleaned_content_cleaned (data : bytes) : content_cleaned data (cleaned data).
Proof.
  exists (Bytes.splitlines data), (map clean_line (Bytes.splitlines data)).
  split; [apply splitlines_ok|]. split; [by rewrite concat_splitlines|].
  split; [done|].
  apply Forall2_fmap_r, Forall2_same_length_lookup_2; [done|].
  intros i x y Hx Hy. simplify_eq. apply clean_line_line_cleaned.
  eapply splitlines_elem. by eapply list_elem_of_lookup_2.
Qed.

(** C2, amended: for every writable file, [cr_cleaner] with [safe_mode]
    false returns normally and leaves the file with the same number of lines
    as before, each line being its input line with a terminating CR+LF
    replaced by LF: a line that was not CR+LF-terminated is byte-identical to
    its input form, and an output line ends with CR+LF exactly when its input
    line ended with CR, CR, LF (so none does when no input line ended that
    way).  The file object holds exactly the bytes written: its position
    after the writes is the sum of the lengths of the lines written, and
    [truncate] makes that the length of the file.  The output is no longer
    than the input. *)
Theorem cr_cleaner_rewrites_lines (w : world) (file_name : string) (data : bytes) :
  files w !! file_name = Some (File true data) →
  let out := cr_cleaner_content data in
  let f := rewrite_lines (FileObj file_name RPlusB data 0) in
  cr_cleaner file_name false w
  = (Ok PyNone,
     World (dirs w) (<[file_name := File true out]> (files w))
       (stdin w) (stdout w) (trace w ++ [EvClean file_name; EvOpen file_name RPlusB]))
  ∧ content_cleaned data out
  ∧ length (Bytes.splitlines out) = length (Bytes.splitlines data)
  ∧ (∀ i l, Bytes.splitlines data !! i = Some l →
       ∃ l', Bytes.splitlines out !! i = Some l'
             ∧ line_cleaned l l'
             ∧ (Bytes.endswith l CRLF = false → l' = l)
             ∧ Bytes.endswith l' CRLF = Bytes.endswith l [CR; CR; LF])
  ∧ (no_line_endswith [CR; CR; LF] data = true → no_line_endswith CRLF out = true)
  ∧ f_buf f = out
  ∧ f_pos f = sum_list (map length (map clean_line (Bytes.splitlines data)))
  ∧ length (f_buf f) = f_pos f
  ∧ length out ≤ length data.
Proof.
  intros Hf out f. subst out f.
  rewrite cr_cleaner_content_eq, rewrite_lines_eq. cbn [f_buf f_pos].
  split; [by apply cr_cleaner_run|]. split; [apply cleaned_content_cleaned|].
  split; [by rewrite cleaned_lines, length_map|].
  split; [|split; [apply cleaned_no_crlf|split; [done|split; [|split; [done|]]]]].
  - intros i l Hl. exists (clean_line l). rewrite cleaned_lines, list_lookup_fmap, Hl.
    assert (terminated l ∨ unterminated l) as Hshape.
    { apply (splitlines_elem data). by eapply list_elem_of_lookup_2. }
    split; [done|]. split; [by apply clean_line_line_cleaned|].
    split; [apply clean_line_plain | by apply clean_line_endswith].
  - unfold cleaned.
    induction (Bytes.splitlines data) as [|l ls IH]; [done|].
    cbn [map concat sum_list sum_list_with]. by rewrite length_app, IH.
  - apply cleaned_length.
Qed.

Lemma cr_cleaner_rewrites_lines_witness :
  files mixed_world !! "a.py"
  = Some (File true (b "a" ++ CRLF ++ b "b" ++ NL ++ b "c" ++ CRLF))
  ∧ cr_cleaner "a.py" false mixed_world
    = (Ok PyNone,
       World ∅ {[ "a.py" := File true (b "a" ++ NL ++ b "b" ++ NL ++ b "c" ++ NL) ]}
         [] [] [EvClean "a.py"; EvOpen "a.py" RPlusB]).
Proof.
  split; [reflexivity|].
  pose proof (cr_cleaner_rewrites_lines mixed_world "a.py"
                (b "a" ++ CRLF ++ b "b" ++ NL ++ b "c" ++ CRLF)
                ltac:(reflexivity)) as [-> _].
  vm_compute. reflexivity.
Defined.

(** C6, as stated, fails: rewriting [b'x\r\r\n'] gives [b'x\r\n'], and
    rewriting that gives [b'x\n']. *)
Lemma cr_cleaner_content_not_idempotent :
  cr_cleaner_content (b "x" ++ [CR; CR; LF]) = b "x" ++ CRLF
  ∧ cr_cleaner_content (b "x" ++ CRLF) = b "x" ++ NL
  ∧ cr_cleaner_content (cr_cleaner_content (b "x" ++ [CR; CR; LF]))
    ≠ cr_cleaner_content (b "x" ++ [CR; CR; LF]).
Proof. vm_compute. repeat split; [reflexivity..|discriminate]. Qed.

(** C6, amended: on every content none of whose lines ends with CR, CR, LF,
    the content transformation of [cr_cleaner] applied twice gives the same
    bytes as applied once; and on a content none of whose lines ends with
    CR+LF it changes nothing. *)
Theorem cr_cleaner_content_idempotent (data : bytes) :
  (no_line_endswith [CR; CR; LF] data = true →
   cr_cleaner_content (cr_cleaner_content data) = cr_cleaner_content data)
  ∧ (no_line_endswith CRLF data = true → cr_cleaner_content data = data).
Proof.
  rewrite !cr_cleaner_content_eq. split.
  - intros H. by apply cleaned_clean, cleaned_no_crlf.
  - apply cleaned_clean.
Qed.

Lemma cr_cleaner_content_idempotent_witness :
  let d1 := b "print(1)" ++ CRLF ++ b "print(2)" ++ NL in
  let d2 := b "print(1)" ++ NL ++ b "print(2)" in
  (no_line_endswith [CR; CR; LF] d1 = true
   ∧ cr_cleaner_content (cr_cleaner_content d1) = cr_cleaner_content d1)
  ∧ (no_line_endswith CRLF d2 = true ∧ cr_cleaner_content d2 = d2).
Proof.
  intros d1 d2. split; (split; [reflexivity|]).
  - apply (cr_cleaner_content_idempotent d1). reflexivity.
  - apply (cr_cleaner_content_idempotent d2). reflexivity.
Defined.

(** C10: the content [cr_cleaner] leaves, built by the guarded replacement
    on each line written back in place, is the content with every CR+LF
    replaced by LF; and in a line as [readlines] returns it, CR+LF occurs
    only at the end. *)
Theorem cr_cleaner_content_is_replace (data : bytes) :
  cr_cleaner_content data = Bytes.replace data CRLF NL
  ∧ ∀ l pre post, l ∈ Bytes.splitlines data → l = pre ++ CRLF ++ post → post = [].
Proof.
  split.
  - rewrite cr_cleaner_content_eq. unfold cleaned.
    rewrite <- replace_concat_lines by apply splitlines_ok.
    by rewrite concat_splitlines.
  - intros l pre post Hl ->.
    assert (∀ body, pre ++ CRLF ++ post = body ++ [LF] → LF ∉ body → post = [])
      as Hterm.
    { intros body Hb Hnot.
      destruct (decide (post = [])) as [|Hne]; [done|].
      destruct (exists_last Hne) as (post' & x & ->).
      change (pre ++ CRLF ++ post' ++ [x]) with (pre ++ [CR] ++ [LF] ++ post' ++ [x]) in Hb.
      rewrite !app_assoc in Hb. apply app_inj_tail in Hb as [<- _].
      destruct Hnot. rewrite !elem_of_app, !list_elem_of_singleton.
      left. right. reflexivity. }
    destruct (splitlines_elem _ _ Hl) as [(body & Hb & Hnot)|[_ Hnot]].
    + by eapply Hterm.
    + destruct Hnot. rewrite !elem_of_app. right. left.
      apply elem_of_cons. right. apply list_elem_of_here.
Qed.

(** ** Inspection: claims C3, C5 and C8 *)

Lemma tests_cons (file_name : string) (start n : nat) :
  tests file_name start (S n) = EvTest file_name start :: tests file_name (S start) n.
Proof. done. Qed.

Section Scan.

Variables (file_name : string).

(** A verbose scan tests every line and prints one diagnostic per line
    that ends with CR+LF. *)
Lemma scan_lines_verbose (lines : list bytes) :
  ∀ start has_cr w,
    scan_lines file_name true has_cr (enumerate_from start lines) w
    = (Ok (has_cr || existsb (fun l => Bytes.endswith l CRLF) lines),
       extend w (map (diagnostic file_name) (crlf_lines start lines))
                (tests file_name start (length lines))).
Proof.
  induction lines as [|l lines IH]; intros start has_cr w.
  - cbn. by rewrite extend_nil, orb_false_r.
  - cbn [enumerate_from scan_lines existsb length].
    rewrite (bind_ok _ _ _ _ _ (log_extend _ _)), tests_cons.
    unfold crlf_lines. cbn [enumerate_from List.filter snd].
    destruct (Bytes.endswith l CRLF).
    + rewrite (bind_ok _ _ _ _ _ (print_extend _ _)), IH, !extend_extend.
      by rewrite orb_true_r.
    + by rewrite IH, extend_extend.
Qed.

(** A scan of lines none of which ends with CR+LF tests them all, prints
    nothing and keeps [has_cr]. *)
Lemma scan_lines_none (verbose : bool) (lines : list bytes) :
  existsb (fun l => Bytes.endswith l CRLF) lines = false →
  ∀ start has_cr w,
    scan_lines file_name verbose has_cr (enumerate_from start lines) w
    = (Ok has_cr, extend w [] (tests file_name start (length lines))).
Proof.
  induction lines as [|l lines IH]; intros Hnone start has_cr w.
  - cbn. by rewrite extend_nil.
  - cbn [existsb] in Hnone. apply orb_false_elim in Hnone as [Hl Hnone].
    cbn [enumerate_from scan_lines length].
    rewrite (bind_ok _ _ _ _ _ (log_extend _ _)), tests_cons, Hl.
    by rewrite IH, extend_extend.
Qed.

(** A scan that is not verbose stops at the first line that ends with
    CR+LF: the lines after it are not tested. *)
Lemma scan_lines_short_circuit (pre rest : list bytes) (l : bytes) :
  existsb (fun l => Bytes.endswith l CRLF) pre = false →
  Bytes.endswith l CRLF = true →
  ∀ start has_cr w,
    scan_lines file_name false has_cr (enumerate_from start (pre ++ l :: rest)) w
    = (Ok true, extend w [] (tests file_name start (S (length pre)))).
Proof.
  induction pre as [|x pre IH]; intros Hpre Hl start has_cr w.
  - cbn [app enumerate_from scan_lines length].
    by rewrite (bind_ok _ _ _ _ _ (log_extend _ _)), Hl.
  - cbn [existsb] in Hpre. apply orb_false_elim in Hpre as [Hx Hpre].
    cbn [app enumerate_from scan_lines length].
    rewrite (bind_ok _ _ _ _ _ (log_extend _ _)), (tests_cons _ start), Hx.
    by rewrite IH, extend_extend.
Qed.

End Scan.

Lemma opened_ok_inv (w : world) (path : string) (mode : open_mode) (f : fileobj) :
  opened w path mode = Ok f → f_name f = path ∧ f_mode f = mode.
Proof.
  unfold opened, opened_file.
  destruct (resolve (files w) path) as [real|]; [|done].
  destruct (files w !! real) as [[wr data|errno strerror|wr errno strerror|t]|];
    try done.
  - destruct mode, wr; by intros [= <-].
  - destruct mode, wr; by intros [= <-].
  - destruct (has_nul path); [done|]. by destruct (bool_decide _).
Qed.

Lemma read_failure_None (w : world) (path : string) :
  read_failure w path = None →
  ∃ writable data, entry_at (files w) path = Some (File writable data).
Proof.
  unfold read_failure, failure, opened, read_error, entry_at, opened_file.
  destruct (resolve (files w) path) as [real|]; [|done].
  destruct (files w !! real) as [[wr data|errno strerror|wr errno strerror|t]|];
    try done.
  - eauto.
  - destruct (has_nul path); [done|]. by destruct (bool_decide _).
Qed.

Lemma read_failure_file (w : world) (path : string) (writable : bool) (data : bytes) :
  entry_at (files w) path = Some (File writable data) → read_failure w path = None.
Proof.
  intros [Ho Hr]%(opened_at_file w path RB). unfold read_failure, failure. by rewrite Ho.
Qed.

(** Opening a file and reading its lines raises what [read_failure] says. *)
Lemma read_all_raises (w : world) (path : string) (e : exn) :
  (read_all path w).1 = Raise e ↔ read_failure w path = Some e.
Proof.
  unfold read_all, read_failure, failure.
  destruct (opened w path RB) as [f|e'] eqn:Ho.
  - destruct (opened_ok_inv _ _ _ _ Ho) as [Hname Hmode].
    destruct (read_error w path) as [e'|] eqn:Hr.
    + erewrite with_open_body_raises; [|done|].
      2:{ apply f_readlines_raises. rewrite Hname. exact Hr. }
      cbn [fst]. split; congruence.
    + erewrite with_open_returns; [|done|].
      2:{ apply f_readlines_ok. rewrite Hname. exact Hr. }
      cbn [fst]. split; discriminate.
  - rewrite (with_open_raises _ _ _ _ _ Ho). cbn [fst]. split; congruence.
Qed.

(** What fails is the [open] or, once that has returned, the read. *)
Lemma read_failure_cases (w : world) (path : string) (e : exn) :
  read_failure w path = Some e →
  (open path RB w).1 = Raise e
  ∨ ∃ f w1, open path RB w = (Ok f, w1) ∧ (f_readlines f w1).1 = Raise e.
Proof.
  unfold read_failure, failure. rewrite open_run.
  destruct (opened w path RB) as [f|e'] eqn:Ho.
  - intros Hr. right. exists f, (extend w [] [EvOpen path RB]). split; [done|].
    destruct (opened_ok_inv _ _ _ _ Ho) as [Hname _].
    rewrite (f_readlines_raises f _ e); [done|]. by rewrite Hname.
  - intros [= ->]. by left.
Qed.

Lemma cr_infile_searching_readable (w w' : world) (file_name : string)
    (verbose writable has_cr : bool) (data : bytes) :
  entry_at (files w) file_name = Some (File writable data) →
  scan_lines file_name verbose false (enumerate (Bytes.splitlines data))
    (extend w [] [EvOpen file_name RB]) = (Ok has_cr, w') →
  cr_infile_searching file_name verbose w = (Ok (PyBool has_cr), w').
Proof.
  intros [Ho Hr]%(opened_at_file w file_name RB) Hscan.
  cbn [opened_file] in Ho.
  unfold cr_infile_searching, try_except.
  rewrite (with_open_returns _ _ _ w w' (FileObj file_name RB data 0)
             (PyBool has_cr, (readlines (FileObj file_name RB data 0)).2) Ho).
  - reflexivity.
  - rewrite (bind_ok _ _ _ _ _
      (f_readlines_ok (FileObj file_name RB data 0)
         (extend w [] [EvOpen file_name RB]) Hr)).
    unfold readlines at 1. cbn [fst f_pos f_buf]. rewrite drop_0.
    by rewrite (bind_ok _ _ _ _ _ Hscan).
Qed.

Lemma cr_infile_searching_unreadable (w : world) (file_name : string)
    (verbose : bool) (e : exn) :
  read_failure w file_name = Some e →
  cr_infile_searching file_name verbose w
  = (Ok PyNone, extend w [cant_read file_name e] [EvOpen file_name RB]).
Proof.
  unfold read_failure, failure. intros He. unfold cr_infile_searching, try_except.
  destruct (opened w file_name RB) as [f|e'] eqn:Ho.
  - destruct (opened_ok_inv _ _ _ _ Ho) as [Hname _].
    erewrite with_open_body_raises; [|done|].
    2:{ apply bind_raise, f_readlines_raises. rewrite Hname. exact He. }
    rewrite (bind_ok _ _ _ _ _ (print_extend _ _)), extend_extend. done.
  - injection He as ->. rewrite (with_open_raises _ _ _ _ _ Ho).
    rewrite (bind_ok _ _ _ _ _ (print_extend _ _)), extend_extend. done.
Qed.

Lemma enumerate_from_ge {A} (l : list A) :
  ∀ start j x, (j, x) ∈ enumerate_from start l → start ≤ j.
Proof.
  induction l as [|y l IH]; intros start j x; cbn [enumerate_from].
  - by intros ?%elem_of_nil.
  - intros [[= -> ->]|Hin%IH]%elem_of_cons; lia.
Qed.

Lemma enumerate_from_lookup {A} (l : list A) (i : nat) (x : A) :
  ∀ start, (start + i, x) ∈ enumerate_from start l ↔ l !! i = Some x.
Proof.
  revert i. induction l as [|y l IH]; intros i start; cbn [enumerate_from].
  - split; [by intros ?%elem_of_nil | done].
  - rewrite elem_of_cons. destruct i as [|i]; cbn [lookup list_lookup].
    + rewrite Nat.add_0_r. split.
      * intros [[= ->]|Hin%enumerate_from_ge]; [done | lia].
      * intros [= ->]. by left.
    + rewrite <- (IH i (S start)).
      replace (S start + i) with (start + S i) by lia. split.
      * intros [[= Hs _]|Hin]; [lia | done].
      * by right.
Qed.

(** The lines reported by a verbose scan: every line that ends with CR+LF,
    under its index. *)
Lemma crlf_lines_lookup (lines : list bytes) (i : nat) (l : bytes) :
  (i, l) ∈ crlf_lines 0 lines ↔ lines !! i = Some l ∧ Bytes.endswith l CRLF = true.
Proof.
  unfold crlf_lines.
  rewrite list_elem_of_In, filter_In, <- list_elem_of_In.
  by rewrite <- (enumerate_from_lookup lines i l 0).
Qed.

Section Inspect_readable.

Variables (w : world) (file_name : string) (writable : bool) (data : bytes).
Hypothesis Hfile : entry_at (files w) file_name = Some (File writable data).

Let lines := Bytes.splitlines data.
Let crlf := fun l => Bytes.endswith l CRLF.

Lemma inspect_short_circuit (pre rest : list bytes) (l : bytes) :
  lines = pre ++ l :: rest → existsb crlf pre = false → crlf l = true →
  cr_infile_searching file_name false w
  = (Ok (PyBool true),
     extend w [] (EvOpen file_name RB :: tests file_name 0 (S (length pre)))).
Proof.
  intros Hlines Hpre Hl.
  eapply cr_infile_searching_readable; [done|].
  unfold enumerate. fold lines. rewrite Hlines.
  by rewrite scan_lines_short_circuit, extend_extend.
Qed.

Lemma inspect_verbose :
  existsb crlf lines = true →
  cr_infile_searching file_name true w
  = (Ok (PyBool true),
     extend w (map (diagnostic file_name) (crlf_lines 0 lines))
            (EvOpen file_name RB :: tests file_name 0 (length lines))).
Proof.
  intros Hsome.
  eapply cr_infile_searching_readable; [done|].
  unfold enumerate. fold lines.
  rewrite scan_lines_verbose, extend_extend. fold crlf. by rewrite Hsome.
Qed.

Lemma inspect_none (verbose : bool) :
  existsb crlf lines = false →
  cr_infile_searching file_name verbose w
  = (Ok (PyBool false),
     extend w [] (EvOpen file_name RB :: tests file_name 0 (length lines))).
Proof.
  intros Hnone.
  eapply cr_infile_searching_readable; [done|].
  unfold enumerate. by rewrite scan_lines_none, extend_extend.
Qed.

End Inspect_readable.

(** C3: on a readable file whose lines are [lines],
    - a scan that is not verbose returns [True] at the first line that ends
      with CR+LF: the lines tested are those up to it, none after it;
    - a verbose scan of a file with such a line tests every line, prints one
      diagnostic (file path, 0-based index, the line's bytes) for each line
      that ends with CR+LF, in order, and returns [True];
    - when no line ends with CR+LF, the scan tests every line, prints nothing
      and returns [False]. *)
Theorem cr_infile_searching_scan (w : world) (file_name : string)
    (writable : bool) (data : bytes) :
  files w !! file_name = Some (File writable data) →
  let lines := Bytes.splitlines data in
  let crlf := fun l => Bytes.endswith l CRLF in
  (∀ pre l rest,
     lines = pre ++ l :: rest → existsb crlf pre = false → crlf l = true →
     cr_infile_searching file_name false w
     = (Ok (PyBool true),
        extend w [] (EvOpen file_name RB :: tests file_name 0 (S (length pre)))))
  ∧ (existsb crlf lines = true →
     cr_infile_searching file_name true w
     = (Ok (PyBool true),
        extend w (map (diagnostic file_name) (crlf_lines 0 lines))
               (EvOpen file_name RB :: tests file_name 0 (length lines))))
  ∧ (∀ i l, (i, l) ∈ crlf_lines 0 lines ↔ lines !! i = Some l ∧ crlf l = true)
  ∧ (existsb crlf lines = false → ∀ verbose,
     cr_infile_searching file_name verbose w
     = (Ok (PyBool false),
        extend w [] (EvOpen file_name RB :: tests file_name 0 (length lines)))).
Proof.
  intros Hf lines crlf. subst lines crlf. split; [|split; [|split]].
  - intros pre l rest. eapply inspect_short_circuit. by eapply entry_at_file.
  - eapply inspect_verbose. by eapply entry_at_file.
  - intros i l. apply crlf_lines_lookup.
  - intros Hnone verbose. eapply inspect_none; [by eapply entry_at_file | done].
Qed.

Lemma cr_infile_searching_scan_witness :
  files three_lines_world !! "t.py" = Some (File false three_lines)
  ∧ cr_infile_searching "t.py" false three_lines_world
    = (Ok (PyBool true), extend three_lines_world [] [EvOpen "t.py" RB; EvTest "t.py" 0])
  ∧ cr_infile_searching "t.py" true three_lines_world
    = (Ok (PyBool true),
       extend three_lines_world
         [Print [OStr "Win32 style file: t.py. LINE #0: b'a\r\n'"];
          Print [OStr "Win32 style file: t.py. LINE #2: b'c\r\n'"]]
         [EvOpen "t.py" RB; EvTest "t.py" 0; EvTest "t.py" 1; EvTest "t.py" 2]).
Proof.
  split; [reflexivity|].
  pose proof (cr_infile_searching_scan three_lines_world "t.py" false three_lines
                ltac:(reflexivity)) as (Hquiet & Hverbose & _).
  split.
  - apply (Hquiet [] (b "a" ++ CRLF) [b "b" ++ NL; b "c" ++ CRLF]); reflexivity.
  - apply Hverbose. reflexivity.
Defined.

(** C5: when the file cannot be opened for reading, or is opened and its
    lines cannot be read, [cr_infile_searching] catches the exception,
    prints the message with the file path and the exception, and returns
    [None], which is false in an [if]; the loop of [cr_finder] then goes on
    with the next path, in the world that differs only by this message and
    the attempt to open: [cr_cleaner] is not called on the file and nothing
    is raised.  The exception is that of [open], or that of [readlines] on
    the file [open] returned. *)
Theorem cr_finder_skips_unreadable (w : world) (file_path : string) (e : exn)
    (rest : list string) (only_inspect verbose safe_mode : bool) :
  (read_all file_path w).1 = Raise e →
  let w' := extend w [cant_read file_path e] [EvOpen file_path RB] in
  cr_infile_searching file_path verbose w = (Ok PyNone, w')
  ∧ truthy PyNone = false
  ∧ ((open file_path RB w).1 = Raise e
     ∨ ∃ f w1, open file_path RB w = (Ok f, w1) ∧ (f_readlines f w1).1 = Raise e)
  ∧ cr_finder_loop (file_path :: rest) only_inspect verbose safe_mode w
    = cr_finder_loop rest only_inspect verbose safe_mode w'.
Proof.
  intros He%read_all_raises w'. subst w'. split; [|split; [|split]].
  - by apply cr_infile_searching_unreadable.
  - reflexivity.
  - by apply read_failure_cases.
  - cbn [cr_finder_loop].
    rewrite (bind_ok _ _ _ _ _ (cr_infile_searching_unreadable _ _ verbose _ He)).
    reflexivity.
Qed.

Lemma cr_finder_skips_unreadable_witness :
  ((read_all "a.py" missing_world).1
   = Raise (OSError 2 "No such file or directory" "a.py")
   ∧ let r := cr_finder_loop ["a.py"; "b.py"] false false false missing_world in
     r.1 = Ok tt
     ∧ files r.2 !! "b.py" = Some (File true (b "ok" ++ NL))
     ∧ stdout r.2 = [cant_read "a.py" (OSError 2 "No such file or directory" "a.py")])
  ∧ ((read_all "a.py" faulty_world).1 = Raise (OSError_read 5 "Input/output error")
     ∧ let r := cr_finder_loop ["a.py"; "b.py"] false false false faulty_world in
       r.1 = Ok tt
       ∧ files r.2 !! "a.py" = Some (Faulty true 5 "Input/output error")
       ∧ files r.2 !! "b.py" = Some (File true (b "ok" ++ NL))
       ∧ stdout r.2 = [cant_read "a.py" (OSError_read 5 "Input/output error")]).
Proof.
  split; (split; [reflexivity|]).
  - pose proof (cr_finder_skips_unreadable missing_world "a.py" _ ["b.py"] false false false
                  ltac:(reflexivity)) as (_ & _ & _ & ->).
    vm_compute. repeat split; reflexivity.
  - pose proof (cr_finder_skips_unreadable faulty_world "a.py" _ ["b.py"] false false false
                  ltac:(reflexivity)) as (_ & _ & _ & ->).
    vm_compute. repeat split; reflexivity.
Defined.

Lemma tests_read_only (file_name : string) (start n : nat) :
  forallb read_only_event (tests file_name start n) = true.
Proof. unfold tests. revert start. induction n as [|n IH]; intros start; [done|]. apply IH. Qed.

Lemma existsb_first {A} (f : A → bool) (l : list A) :
  existsb f l = true →
  ∃ pre x rest, l = pre ++ x :: rest ∧ existsb f pre = false ∧ f x = true.
Proof.
  induction l as [|y l IH]; [done|]. cbn [existsb].
  destruct (f y) eqn:Ey.
  - intros _. by exists [], y, l.
  - intros (pre & x & rest & -> & Hpre & Hx)%IH.
    exists (y :: pre), x, rest. cbn [existsb]. by rewrite Ey.
Qed.

(** Inspection of one file never raises and changes nothing but the output
    and the ghost trace, where it leaves read-only events. *)
Lemma cr_infile_searching_reads_only (w : world) (file_name : string) (verbose : bool) :
  ∃ v out evs,
    cr_infile_searching file_name verbose w = (Ok v, extend w out evs)
    ∧ forallb read_only_event evs = true.
Proof.
  destruct (read_failure w file_name) as [e|] eqn:E.
  - eexists _, _, _. split; [by apply cr_infile_searching_unreadable | done].
  - apply read_failure_None in E as (wr & data & Hf).
    destruct (existsb (fun l => Bytes.endswith l CRLF) (Bytes.splitlines data)) eqn:Ex.
    + destruct verbose.
      * eexists _, _, _. split; [by eapply inspect_verbose | apply tests_read_only].
      * destruct (existsb_first _ _ Ex) as (pre & l & rest & Hl & Hpre & Hx).
        eexists _, _, _.
        split; [by eapply inspect_short_circuit | apply tests_read_only].
    + eexists _, _, _. split; [by eapply inspect_none | apply tests_read_only].
Qed.

Lemma cr_finder_loop_inspect (paths : list string) (verbose safe_mode : bool) :
  ∀ w, ∃ out evs,
    cr_finder_loop paths true verbose safe_mode w = (Ok tt, extend w out evs)
    ∧ forallb read_only_event evs = true.
Proof.
  induction paths as [|p paths IH]; intros w.
  - exists [], []. by rewrite extend_nil.
  - destruct (cr_infile_searching_reads_only w p verbose) as (v & o1 & t1 & Hs & Ht1).
    destruct (IH (extend w o1 t1)) as (o2 & t2 & Hloop & Ht2).
    exists (o1 ++ o2), (t1 ++ t2). split.
    + cbn [cr_finder_loop]. rewrite (bind_ok _ _ _ _ _ Hs).
      cbn [negb]. rewrite andb_false_r.
      rewrite <- extend_extend, <- Hloop. reflexivity.
    + rewrite forallb_app. by rewrite Ht1, Ht2.
Qed.

(** C8: [cr_finder] with [only_inspect] true returns normally, whatever the
    root, the tree and the files; it leaves every file as it was; and every
    file it opens it opens for reading, [cr_cleaner] being called on none. *)
Theorem cr_finder_inspect_only (module_file : string) (w : world)
    (init_dir : string) (verbose safe_mode : bool) :
  ∃ out evs,
    cr_finder module_file init_dir true verbose safe_mode w = (Ok PyNone, extend w out evs)
    ∧ files (extend w out evs) = files w
    ∧ forallb read_only_event evs = true
    ∧ (∀ path, (EvClean path ∉ evs) ∧ (EvOpen path RPlusB ∉ evs)).
Proof.
  destruct (cr_finder_loop_inspect (walker module_file w init_dir) verbose safe_mode w)
    as (out & evs & Hloop & Hevs).
  exists out, evs. split; [|split; [done|split; [done|]]].
  - unfold cr_finder. by rewrite (bind_ok _ _ _ _ _ Hloop).
  - rewrite forallb_forall in Hevs.
    intros path. split; intros Hin%list_elem_of_In%Hevs; done.
Qed.

(** C9: [cr_cleaner] with [safe_mode] true always raises
    [UnboundLocalError] for the local [f]: nothing is shown on the output
    and no line is read from the input (the prompt is not reached), no file
    is opened, and every file is as it was. *)
Theorem cr_cleaner_safe_mode_raises (w : world) (file_name : string) :
  cr_cleaner file_name true w
  = (Raise (UnboundLocalError "f"), extend w [] [EvClean file_name])
  ∧ files (cr_cleaner file_name true w).2 = files w
  ∧ stdout (cr_cleaner file_name true w).2 = stdout w
  ∧ stdin (cr_cleaner file_name true w).2 = stdin w
  ∧ (∀ path mode, EvOpen path mode ∉ [EvClean file_name]).
Proof.
  assert (cr_cleaner file_name true w
          = (Raise (UnboundLocalError "f"), extend w [] [EvClean file_name])) as Hrun.
  { unfold cr_cleaner. rewrite (bind_ok _ _ _ _ _ (log_extend _ _)). reflexivity. }
  rewrite Hrun. cbn [snd extend files stdout stdin]. rewrite app_nil_r.
  repeat split. by intros path mode [=]%list_elem_of_singleton.
Qed.

(** C1 fails on the code: with [safe_mode] true and the answer [y] on the
    input, [cr_cleaner] shows no prompt, does not read the answer and does
    not rewrite the file; with the answer [n] it does not return but
    raises. *)
Lemma cr_cleaner_safe_mode_never_asks :
  cr_cleaner "a.py" true (safe_world "y")
  = (Raise (UnboundLocalError "f"),
     World ∅ {[ "a.py" := File true (b "ok" ++ CRLF) ]} ["y"] [] [EvClean "a.py"])
  ∧ cr_cleaner "a.py" true (safe_world "n")
    = (Raise (UnboundLocalError "f"),
       World ∅ {[ "a.py" := File true (b "ok" ++ CRLF) ]} ["n"] [] [EvClean "a.py"]).
Proof. split; reflexivity. Qed.

(** ** The file filter: claim C7 *)

(** What [is_valid] returns, case by case. *)
Lemma is_valid_cases (module_file filename : string) :
  is_valid module_file filename
  = if String.eqb filename (os_path.split_tail module_file) then PyBool false
    else if bool_decide (os_path.splitext_ext filename ∈ TARGET_FILES) then PyBool true
    else PyNone.
Proof.
  unfold is_valid. cbv zeta. unfold TARGET_FILES at 1. cbn [existsb].
  rewrite orb_false_r.
  destruct (String.eqb filename _); [done|].
  destruct (String.eqb_spec (os_path.splitext_ext filename) ".py") as [->|Hne].
  - by rewrite bool_decide_eq_true_2 by apply list_elem_of_here.
  - rewrite bool_decide_eq_false_2; [done|].
    by intros ?%list_elem_of_singleton.
Qed.

(** In an [if], as [walker] uses it, the result is true exactly for a file
    that is not the module itself and has a target extension. *)
Lemma is_valid_truthy (module_file filename : string) :
  truthy (is_valid module_file filename)
  = negb (String.eqb filename (os_path.split_tail module_file))
    && bool_decide (os_path.splitext_ext filename ∈ TARGET_FILES).
Proof.
  rewrite is_valid_cases.
  destruct (String.eqb filename _); [done|]. by destruct (bool_decide _).
Qed.

(** C7 fails on the code: for a file whose extension is not in
    [TARGET_FILES], [is_valid] runs off its end and returns [None], not
    [False]; it returns [False] only for the module's own file name, and
    [True] for another file with the extension [.py], compared exactly. *)
Lemma is_valid_returns_none :
  is_valid demo_file "b.txt" = PyNone
  ∧ is_valid demo_file "a.PY" = PyNone
  ∧ PyNone ≠ PyBool false
  ∧ is_valid demo_file "cr_cleaner.py" = PyBool false
  ∧ is_valid demo_file "a.py" = PyBool true.
Proof. repeat split; done. Qed.

(** ** The walker: claim C4 *)

Lemma dirtree_nested_ind (P : dirtree → Prop) :
  P Unlisted →
  (∀ sub_dirs sub_files, Forall (fun d => P d.2) sub_dirs → P (Dir sub_dirs sub_files)) →
  ∀ t, P t.
Proof.
  intros HU HD.
  refine (fix IH t := match t with
                      | Unlisted => HU
                      | Dir sub_dirs sub_files => HD sub_dirs sub_files _
                      end).
  induction sub_dirs as [|d ds IHds]; constructor; [apply IH | exact IHds].
Qed.

Lemma prefix_app (needle hay tail : string) :
  String.prefix needle hay = true → String.prefix needle (hay +:+ tail) = true.
Proof.
  revert hay. induction needle as [|a needle IH]; intros [|c hay].
  - by destruct tail.
  - done.
  - done.
  - simpl. destruct (Ascii.ascii_dec a c); [apply IH | done].
Qed.

Lemma contains_app (hay needle tail : string) :
  Str.contains hay needle = true → Str.contains (hay +:+ tail) needle = true.
Proof.
  induction hay as [|c hay IH]; cbn [Str.contains String.append].
  - rewrite orb_false_r. intros H. destruct needle; [|done].
    by destruct tail.
  - intros [H|H]%orb_true_iff; apply orb_true_iff.
    + left. by apply (prefix_app needle (String c hay) tail).
    + right. by apply IH.
Qed.

Lemma is_valid_path_app (filepath tail : string) :
  is_valid_path filepath = false → is_valid_path (filepath +:+ tail) = false.
Proof.
  unfold is_valid_path. induction IGNORE_FOLDERS as [|ign rest IH]; [done|].
  cbn [is_valid_path_from].
  destruct (Str.contains filepath ign) eqn:E.
  - intros _. by rewrite (contains_app _ _ tail E).
  - intros H%IH. by destruct (Str.contains (filepath +:+ tail) ign).
Qed.

Lemma join_extends (top n : string) :
  entry_name n = true → ∃ tail, os_path.join top n = top +:+ tail.
Proof.
  unfold entry_name, os_path.join.
  intros [_ Hn%negb_true_iff]%andb_true_iff.
  assert (String.prefix "/" n = false) as ->.
  { destruct n; cbn [Str.contains] in Hn; by apply orb_false_elim in Hn as [? _]. }
  destruct (_ || _); eauto.
Qed.

(** Beneath a directory that [is_valid_path] rejects, every directory is
    rejected, and the walker yields nothing there. *)
Lemma os_walk_ignored (module_file : string) (t : dirtree) :
  ∀ top, names_ok t = true → is_valid_path top = false →
         Forall (fun e => is_valid_path e.1.1 = false ∧ walker_dir module_file e = [])
                (os_walk top t).
Proof.
  induction t as [|sub_dirs sub_files IH] using dirtree_nested_ind;
    intros top Hok Htop; cbn [os_walk]; [constructor|].
  cbn [names_ok] in Hok. apply andb_true_iff in Hok as [Hdirs _].
  constructor.
  - cbn [fst walker_dir]. by rewrite Htop.
  - clear sub_files. induction sub_dirs as [|[n sub] ds IHds]; [constructor|].
    cbn [forallb fst snd] in Hdirs.
    apply andb_true_iff in Hdirs as [[Hn Hsub]%andb_true_iff Hds].
    apply Forall_cons in IH as [IHsub IHrest].
    cbn [flat_map]. apply Forall_app. split; [|by apply IHds].
    apply IHsub; [done|]. cbn [fst].
    destruct (join_extends top n Hn) as [tail ->]. by apply is_valid_path_app.
Qed.

Lemma flat_map_nil_Forall {A B} (f : A → list B) (l : list A) :
  Forall (fun x => f x = []) l → flat_map f l = [].
Proof. induction 1 as [|x l Hx _ IH]; [done|]. cbn [flat_map]. by rewrite Hx, IH. Qed.

(** What [os.walk] lists at and beneath a directory it comes to is a
    contiguous part of the whole walk. *)
Lemma os_walk_reaches (top D : string) (t tD : dirtree) :
  reaches top t D tD →
  ∃ before after, os_walk top t = before ++ os_walk D tD ++ after.
Proof.
  induction 1 as [top t|top sub_dirs sub_files n sub D tD Hin _ (bf & af & IH)].
  - exists [], []. by rewrite app_nil_r.
  - apply list_elem_of_split in Hin as (l1 & l2 & ->).
    set (f := fun d : string * dirtree => os_walk (os_path.join top d.1) d.2).
    exists ((top, map fst (l1 ++ (n, sub) :: l2), sub_files) :: flat_map f l1 ++ bf),
           (af ++ flat_map f l2).
    cbn [os_walk]. fold f. rewrite flat_map_app. cbn [flat_map].
    unfold f at 2. cbn [fst snd]. rewrite IH.
    by rewrite <- !app_assoc, <- app_comm_cons, <- !app_assoc.
Qed.

Lemma names_ok_reaches (top D : string) (t tD : dirtree) :
  reaches top t D tD → names_ok t = true → names_ok tD = true.
Proof.
  induction 1 as [|top sub_dirs sub_files n sub D tD Hin _ IH]; [done|].
  cbn [names_ok]. intros [Hdirs _]%andb_true_iff. apply IH.
  rewrite forallb_forall in Hdirs.
  apply list_elem_of_In, Hdirs, andb_true_iff in Hin as [_ Hsub]. done.
Qed.

(** C4, as stated, fails: [/proj/.git] is rejected by [is_valid_path], yet
    the traversal goes on into its sub-directory [hooks]; the walker only
    yields nothing there. *)
Lemma walker_descends_into_ignored :
  is_valid_path "/proj/.git" = false
  ∧ walk git_world "/proj"
    = [("/proj", [".git"; "src"], ["setup.py"]);
       ("/proj/.git", ["hooks"], ["config.py"]);
       ("/proj/.git/hooks", [], ["pre-commit.py"]);
       ("/proj/src", [], ["main.py"])]
  ∧ walker demo_file git_world "/proj" = ["/proj/setup.py"; "/proj/src/main.py"].
Proof. repeat split; reflexivity. Qed.

(** C4, amended: when [os.walk], in a tree whose entries have proper names,
    comes to a directory [D] that [is_valid_path] rejects, the walker yields
    no file at [D] or beneath it: every directory [os.walk] lists there
    (it does go into the sub-directories of [D]) is rejected as well, since
    its path extends the path of [D]; what the walker yields is what it
    yields before and after that part of the walk. *)
Theorem walker_skips_ignored_subtree (module_file top D : string) (t tD : dirtree) :
  reaches top t D tD →
  names_ok t = true →
  is_valid_path D = false →
  Forall (fun e => is_valid_path e.1.1 = false ∧ walker_dir module_file e = [])
         (os_walk D tD)
  ∧ ∃ before after,
      os_walk top t = before ++ os_walk D tD ++ after
      ∧ flat_map (walker_dir module_file) (os_walk top t)
        = flat_map (walker_dir module_file) before
          ++ flat_map (walker_dir module_file) after.
Proof.
  intros Hreach Hok HD.
  assert (Forall (fun e => is_valid_path e.1.1 = false ∧ walker_dir module_file e = [])
                 (os_walk D tD)) as Hsub.
  { apply os_walk_ignored; [by eapply names_ok_reaches | done]. }
  split; [done|].
  destruct (os_walk_reaches _ _ _ _ Hreach) as (before & after & Hwalk).
  exists before, after. split; [done|].
  rewrite Hwalk, !flat_map_app.
  rewrite (flat_map_nil_Forall (walker_dir module_file) (os_walk D tD)); [done|].
  eapply Forall_impl; [exact Hsub | by intros e [_ He]].
Qed.

Lemma walker_skips_ignored_subtree_witness :
  let tD := Dir [("hooks", Dir [] ["pre-commit.py"])] ["config.py"] in
  reaches "/proj" git_tree "/proj/.git" tD
  ∧ names_ok git_tree = true
  ∧ is_valid_path "/proj/.git" = false
  ∧ flat_map (walker_dir demo_file) (os_walk "/proj/.git" tD) = [].
Proof.
  intros tD.
  assert (reaches "/proj" git_tree "/proj/.git" tD) as Hreach.
  { eapply reaches_sub; [apply list_elem_of_here | apply reaches_top]. }
  split; [exact Hreach|]. split; [reflexivity|]. split; [reflexivity|].
  destruct (walker_skips_ignored_subtree demo_file _ _ _ _ Hreach eq_refl eq_refl)
    as [Hsub _].
  apply flat_map_nil_Forall.
  eapply Forall_impl; [exact Hsub | by intros e [_ He]].
Defined.

(** * Further properties *)

(** ** The path filter and the walker *)

Lemma prefix_split (needle hay : string) :
  String.prefix needle hay = true ↔ ∃ post, hay = needle +:+ post.
Proof.
  revert hay. induction needle as [|a needle IH]; intros hay.
  - split; [intros _; by exists hay | by destruct hay].
  - destruct hay as [|c hay]; simpl.
    + split; [done | by intros [post ?]].
    + destruct (Ascii.ascii_dec a c) as [->|Hne].
      * rewrite IH. split; intros [post Hp]; exists post.
        -- by rewrite Hp.
        -- change (String c hay = String c (needle +:+ post)) in Hp. congruence.
      * split; [done|]. intros [post Hp].
        change (String c hay = String a (needle +:+ post)) in Hp. congruence.
Qed.

Lemma contains_split (hay needle : string) :
  Str.contains hay needle = true ↔ ∃ pre post, hay = pre +:+ needle +:+ post.
Proof.
  induction hay as [|c hay IH]; cbn [Str.contains].
  - rewrite orb_false_r, prefix_split. split.
    + intros [post Hp]. by exists "", post.
    + intros ([|? pre] & post & Hp); [by exists post | done].
  - rewrite orb_true_iff, prefix_split, IH. split.
    + intros [[post Hp]|(pre & post & Hp)].
      * by exists "", post.
      * exists (String c pre), post. by rewrite Hp.
    + intros ([|c' pre] & post & Hp).
      * left. by exists post.
      * right. change (String c hay = String c' (pre +:+ needle +:+ post)) in Hp.
        exists pre, post. congruence.
Qed.

Lemma is_valid_path_from_false (ignore : list string) (filepath : string) :
  is_valid_path_from ignore filepath = false
  ↔ ∃ ign_dir, ign_dir ∈ ignore ∧ Str.contains filepath ign_dir = true.
Proof.
  induction ignore as [|ign rest IH]; cbn [is_valid_path_from].
  - split; [done | by intros (? & ?%elem_of_nil & _)].
  - destruct (Str.contains filepath ign) eqn:E.
    + split; [|done]. intros _. exists ign. split; [apply list_elem_of_here | done].
    + rewrite IH. split.
      * intros (x & Hx & Hc). exists x. split; [by apply list_elem_of_further | done].
      * intros (x & [->|Hx]%elem_of_cons & Hc); [congruence | by exists x].
Qed.

(** X1: [is_valid_path] rejects a path exactly when one of the names of
    [IGNORE_FOLDERS] occurs in it as a substring, at any place: also inside
    a longer directory name, and also in the part of the path above the
    directory the walk started from. *)
Theorem is_valid_path_rejects_substring (filepath : string) :
  is_valid_path filepath = false
  ↔ ∃ ign_dir pre post,
      ign_dir ∈ IGNORE_FOLDERS ∧ filepath = pre +:+ ign_dir +:+ post.
Proof.
  unfold is_valid_path. rewrite is_valid_path_from_false. split.
  - intros (ign & Hin & (pre & post & ->)%contains_split). by exists ign, pre, post.
  - intros (ign & pre & post & Hin & ->). exists ign. split; [done|].
    apply contains_split. by exists pre, post.
Qed.

Lemma walker_dir_elem (module_file p : string) (entry : string * list string * list string) :
  p ∈ walker_dir module_file entry
  ↔ is_valid_path entry.1.1 = true
    ∧ ∃ fname, fname ∈ entry.2
               ∧ truthy (is_valid module_file fname) = true
               ∧ p = os_path.join entry.1.1 fname.
Proof.
  destruct entry as [[cur_dir sub_dirs] sub_files]. cbn [walker_dir fst snd].
  destruct (is_valid_path cur_dir); cbn [negb].
  - rewrite list_elem_of_In, in_flat_map. split.
    + intros (fname & Hin%list_elem_of_In & Hp). split; [done|]. exists fname.
      cbv beta in Hp.
      destruct (truthy (is_valid module_file fname)); [|by destruct Hp].
      destruct Hp as [<-|[]]. done.
    + intros (_ & fname & Hin%list_elem_of_In & Ht & ->). exists fname.
      split; [done|]. cbv beta. rewrite Ht. by left.
  - split; [by intros ?%elem_of_nil | by intros [? _]].
Qed.

(** X2: the walker yields exactly the paths [join(cur_dir, fname)] where
    [os.walk] lists the file [fname] in the directory [cur_dir], the path of
    [cur_dir] is accepted by [is_valid_path], [fname] is not the file name
    of the module itself, and the extension of [fname] is [.py]. *)
Theorem walker_yields (module_file : string) (w : world) (init_path p : string) :
  p ∈ walker module_file w init_path
  ↔ ∃ cur_dir sub_dirs sub_files fname,
      (cur_dir, sub_dirs, sub_files) ∈ walk w init_path
      ∧ is_valid_path cur_dir = true
      ∧ fname ∈ sub_files
      ∧ fname ≠ os_path.split_tail module_file
      ∧ os_path.splitext_ext fname = ".py"
      ∧ p = os_path.join cur_dir fname.
Proof.
  unfold walker. rewrite list_elem_of_In, in_flat_map.
  assert (∀ fname, truthy (is_valid module_file fname) = true
                   ↔ fname ≠ os_path.split_tail module_file
                     ∧ os_path.splitext_ext fname = ".py") as Hvalid.
  { intros fname. rewrite is_valid_truthy, andb_true_iff, negb_true_iff.
    rewrite bool_decide_eq_true. unfold TARGET_FILES.
    rewrite list_elem_of_singleton.
    by rewrite String.eqb_neq. }
  split.
  - intros ([[cur_dir sub_dirs] sub_files] & Hin%list_elem_of_In & Hp%list_elem_of_In).
    apply walker_dir_elem in Hp as (Hdir & fname & Hf & [Hown Hext]%Hvalid & ->).
    by exists cur_dir, sub_dirs, sub_files, fname.
  - intros (cur_dir & sub_dirs & sub_files & fname & Hin & Hdir & Hf & Hown & Hext & ->).
    exists (cur_dir, sub_dirs, sub_files). split; [by apply list_elem_of_In|].
    apply list_elem_of_In, walker_dir_elem. split; [done|].
    exists fname. split; [done|]. split; [by apply Hvalid | done].
Qed.

(** ** Inspection of one file *)

Lemma endswith_cons (c : byte) (l suf : bytes) :
  Bytes.endswith l suf = true → Bytes.endswith (c :: l) suf = true.
Proof. rewrite !endswith_suffix. apply suffix_cons_r. Qed.

Lemma has_crlf_line_after (pre post : bytes) :
  has_crlf_line (pre ++ CRLF ++ post) = true.
Proof.
  unfold has_crlf_line. induction pre as [|c pre IH].
  - cbn [app CRLF Bytes.splitlines]. change (Byte.eqb CR LF) with false.
    change (Byte.eqb LF LF) with true. cbn iota. reflexivity.
  - rewrite <- app_comm_cons. cbn [Bytes.splitlines].
    destruct (Byte.eqb c LF); [cbn [existsb]; by rewrite IH, orb_true_r|].
    destruct (Bytes.splitlines (pre ++ CRLF ++ post)) as [|l ls]; [done|].
    cbn [existsb] in *. apply orb_true_iff in IH as [Hl|Hls].
    + by rewrite (endswith_cons c l CRLF Hl).
    + by rewrite Hls, orb_true_r.
Qed.

Lemma has_crlf_line_occurs (data : bytes) :
  has_crlf_line data = true ↔ ∃ pre post, data = pre ++ CRLF ++ post.
Proof.
  split; [|intros (pre & post & ->); apply has_crlf_line_after].
  unfold has_crlf_line. intros (l & Hl & Hcrlf)%existsb_exists.
  apply endswith_suffix in Hcrlf as [k ->].
  apply list_elem_of_In, list_elem_of_split in Hl as (l1 & l2 & Hlines).
  exists (concat l1 ++ k), (concat l2).
  rewrite <- (concat_splitlines data), Hlines, concat_app, concat_cons.
  by rewrite <- !app_assoc.
Qed.

Lemma tests_path (file_name : string) (start n : nat) :
  Forall (fun ev => event_path ev = file_name) (tests file_name start n).
Proof. unfold tests. apply Forall_fmap, Forall_forall. done. Qed.

(** What the inspection of a readable file returns and leaves. *)
Lemma inspect_readable (w : world) (file_name : string) (writable verbose : bool)
    (data : bytes) :
  entry_at (files w) file_name = Some (File writable data) →
  ∃ out evs,
    cr_infile_searching file_name verbose w
    = (Ok (PyBool (has_crlf_line data)), extend w out evs)
    ∧ forallb read_only_event evs = true
    ∧ Forall (fun ev => event_path ev = file_name) evs.
Proof.
  intros Hf. unfold has_crlf_line.
  destruct (existsb _ (Bytes.splitlines data)) eqn:Ex.
  - destruct verbose.
    + eexists _, _. split; [by eapply inspect_verbose|].
      split; [apply tests_read_only | constructor; [done | apply tests_path]].
    + destruct (existsb_first _ _ Ex) as (pre & l & rest & Hl & Hpre & Hx).
      eexists _, _. split; [by eapply inspect_short_circuit|].
      split; [apply tests_read_only | constructor; [done | apply tests_path]].
  - eexists _, _. split; [by eapply inspect_none|].
    split; [apply tests_read_only | constructor; [done | apply tests_path]].
Qed.

(** X3: for a readable file, [cr_infile_searching] returns [True] exactly
    when the two bytes CR, LF occur somewhere in the content, and [False]
    otherwise; the verdict is the same with and without [verbose]. *)
Theorem cr_infile_searching_verdict (w : world) (file_name : string)
    (writable : bool) (data : bytes) :
  files w !! file_name = Some (File writable data) →
  ∃ has_cr : bool,
    (∀ verbose, (cr_infile_searching file_name verbose w).1 = Ok (PyBool has_cr))
    ∧ (has_cr = true ↔ ∃ pre post, data = pre ++ CRLF ++ post).
Proof.
  intros Hf. exists (has_crlf_line data). split; [|apply has_crlf_line_occurs].
  intros verbose.
  destruct (inspect_readable w file_name writable verbose data
              (entry_at_file _ _ _ _ Hf)) as (o & t & -> & _).
  done.
Qed.

Lemma cr_infile_searching_verdict_witness :
  files three_lines_world !! "t.py" = Some (File false three_lines)
  ∧ (cr_infile_searching "t.py" true three_lines_world).1
    = (cr_infile_searching "t.py" false three_lines_world).1.
Proof.
  split; [reflexivity|].
  destruct (cr_infile_searching_verdict three_lines_world "t.py" false three_lines
              ltac:(reflexivity)) as (v & Hv & _).
  by rewrite !Hv.
Defined.

(** X4: [cr_infile_searching] never raises, whatever the path and the
    world: it returns [None] exactly when the file cannot be opened for
    reading or, once open, cannot be read, and it leaves the directories,
    all files and the input as they were. *)
Theorem cr_infile_searching_never_raises (w : world) (file_name : string)
    (verbose : bool) :
  ∃ v w',
    cr_infile_searching file_name verbose w = (Ok v, w')
    ∧ (v = PyNone ↔ ∃ e, (read_all file_name w).1 = Raise e)
    ∧ (v = PyNone ↔
       ∃ e, (open file_name RB w).1 = Raise e
            ∨ ∃ f w1, open file_name RB w = (Ok f, w1) ∧ (f_readlines f w1).1 = Raise e)
    ∧ dirs w' = dirs w ∧ files w' = files w ∧ stdin w' = stdin w.
Proof.
  destruct (read_failure w file_name) as [e|] eqn:E.
  - eexists _, _. split; [by apply cr_infile_searching_unreadable|].
    split; [|split; [|done]]; (split; [|done]); intros _; exists e.
    + by apply read_all_raises.
    + by apply read_failure_cases.
  - assert (∀ e, (read_all file_name w).1 ≠ Raise e) as Hnot.
    { intros e He%read_all_raises. congruence. }
    pose proof E as (wr & data & Hf)%read_failure_None.
    destruct (inspect_readable w file_name wr verbose data Hf) as (o & t & -> & _).
    eexists _, _. split; [done|].
    split; [|split; [|done]]; (split; [done|]).
    + intros [e He]. by destruct (Hnot e).
    + destruct (opened_at_file w file_name RB wr data Hf) as [Ho Hr].
      cbn [opened_file] in Ho.
      intros (e & [He|(f & w1 & Hopen & He)]).
      * rewrite open_run, Ho in He. done.
      * rewrite open_run, Ho in Hopen. injection Hopen as <- <-.
        rewrite (f_readlines_ok (FileObj file_name RB data 0)
                   (extend w [] [EvOpen file_name RB]) Hr) in He.
        done.
Qed.

(** ** The rewrite of one file *)

Lemma clean_line_shrinks (l : bytes) :
  terminated l ∨ unterminated l →
  length (clean_line l) + (if Bytes.endswith l CRLF then 1 else 0) = length l.
Proof.
  intros [Hl|Hl].
  - destruct (clean_line_cases l Hl) as [(body & _ & -> & ->)|[-> ->]]; [|lia].
    replace (Bytes.endswith (body ++ [CR; LF]) CRLF) with true.
    + rewrite !length_app. simpl. lia.
    + symmetry. apply endswith_suffix. by exists body.
  - rewrite clean_line_plain, endswith_unterminated by by try apply endswith_unterminated.
    lia.
Qed.

Lemma cleaned_shrinks (ls : list bytes) :
  Forall (fun l => terminated l ∨ unterminated l) ls →
  ∀ start,
    length (concat (map clean_line ls)) + length (crlf_lines start ls)
    = length (concat ls).
Proof.
  unfold crlf_lines.
  induction 1 as [|l ls Hl _ IH]; intros start; [done|].
  cbn [map concat enumerate_from List.filter snd]. rewrite !length_app.
  specialize (IH (S start)). pose proof (clean_line_shrinks l Hl) as Hs.
  destruct (Bytes.endswith l CRLF); cbn [length]; lia.
Qed.

(** X5: the rewrite makes the content shorter by exactly one byte for each
    line that ends with CR+LF. *)
Theorem cr_cleaner_content_length (data : bytes) :
  length (cr_cleaner_content data)
  + length (crlf_lines 0 (Bytes.splitlines data))
  = length data.
Proof.
  rewrite cr_cleaner_content_eq. unfold cleaned.
  rewrite cleaned_shrinks, concat_splitlines; [done|].
  apply Forall_forall. intros l Hl. by eapply splitlines_elem.
Qed.

Lemma cr_cleaner_fails (w : world) (file_name : string) (e : exn) :
  failure w file_name RPlusB = Some e →
  cr_cleaner file_name false w
  = (Raise e, extend w [] [EvClean file_name; EvOpen file_name RPlusB]).
Proof.
  unfold failure. intros He. rewrite cr_cleaner_unsafe.
  set (w1 := extend w [] [EvClean file_name]).
  change (opened w file_name RPlusB) with (opened w1 file_name RPlusB) in He.
  change (read_error w file_name) with (read_error w1 file_name) in He.
  destruct (opened w1 file_name RPlusB) as [f|e'] eqn:Ho.
  - destruct (opened_ok_inv _ _ _ _ Ho) as [Hname _].
    erewrite with_open_body_raises; [|done|].
    2:{ apply bind_raise, f_readlines_raises. rewrite Hname. exact He. }
    unfold w1. by rewrite extend_extend.
  - injection He as ->. rewrite (with_open_raises _ _ _ _ _ Ho).
    unfold w1. by rewrite extend_extend.
Qed.

Lemma failure_None (w : world) (path : string) (mode : open_mode) :
  failure w path mode = None →
  ∃ writable data,
    entry_at (files w) path = Some (File writable data)
    ∧ (mode = RB ∨ writable = true).
Proof.
  unfold failure, opened, read_error, entry_at, opened_file.
  destruct (resolve (files w) path) as [real|]; [|done].
  destruct (files w !! real) as [[wr data|errno strerror|wr errno strerror|t]|];
    try done.
  - intros H. exists wr, data. split; [done|]. destruct mode, wr; auto. done.
  - by destruct mode, wr.
  - destruct (has_nul path); [done|]. by destruct (bool_decide _).
Qed.

(** The exception of a call that fails, case by case. *)
Lemma failure_cases (w : world) (path : string) (mode : open_mode) (e : exn) :
  failure w path mode = Some e →
  (∀ writable data,
     entry_at (files w) path = Some (File writable data) →
     mode = RPlusB ∧ writable = false ∧ e = OSError 13 "Permission denied" path)
  ∧ (∀ errno strerror,
       entry_at (files w) path = Some (Unreadable errno strerror) →
       e = OSError errno strerror path)
  ∧ (∀ errno strerror,
       entry_at (files w) path = Some (Faulty true errno strerror) →
       e = OSError_read errno strerror)
  ∧ (files w !! path = None →
     e = if has_nul path then ValueError "embedded null byte"
         else if isdir w path then OSError 21 "Is a directory" path
         else OSError 2 "No such file or directory" path).
Proof.
  unfold failure, opened, read_error, entry_at, opened_file, isdir.
  intros He. split; [|split; [|split]].
  - intros wr data Hf. destruct (resolve (files w) path) as [real|]; [|done].
    rewrite Hf in He. by destruct mode, wr; simplify_eq.
  - intros errno strerror Hf. destruct (resolve (files w) path) as [real|]; [|done].
    rewrite Hf in He. by simplify_eq.
  - intros errno strerror Hf. destruct (resolve (files w) path) as [real|]; [|done].
    rewrite Hf in He. by destruct mode; simplify_eq.
  - intros Hf. rewrite (resolve_none _ _ Hf), Hf in He.
    destruct (has_nul path); [by simplify_eq|].
    by destruct (bool_decide _); simplify_eq.
Qed.

(** X6: [cr_cleaner] with [safe_mode] false, on a path that does not lead
    to a file that can be read and written, raises and changes nothing: it
    creates no file and rewrites none.  The exception is that of [open], or
    that of [readlines] on the file [open] returned: [PermissionError]
    (errno 13) with the path for a read-only file, the error of the operating
    system with the path for something that cannot be opened, the error of
    the read, without a path, for a file that cannot be read; and, with
    nothing at the path, [ValueError] for a path that holds a NUL character,
    [IsADirectoryError] (errno 21) for a directory, and [FileNotFoundError]
    (errno 2) otherwise. *)
Theorem cr_cleaner_raises_oserror (w : world) (file_name : string) :
  (∀ data, entry_at (files w) file_name ≠ Some (File true data)) →
  ∃ e,
    cr_cleaner file_name false w
    = (Raise e, extend w [] [EvClean file_name; EvOpen file_name RPlusB])
    ∧ files (cr_cleaner file_name false w).2 = files w
    ∧ ((open file_name RPlusB w).1 = Raise e
       ∨ ∃ f w1, open file_name RPlusB w = (Ok f, w1)
                 ∧ (f_readlines f w1).1 = Raise e)
    ∧ (∀ data, entry_at (files w) file_name = Some (File false data) →
         e = OSError 13 "Permission denied" file_name)
    ∧ (∀ errno strerror,
         entry_at (files w) file_name = Some (Unreadable errno strerror) →
         e = OSError errno strerror file_name)
    ∧ (∀ errno strerror,
         entry_at (files w) file_name = Some (Faulty true errno strerror) →
         e = OSError_read errno strerror)
    ∧ (files w !! file_name = None →
       e = if has_nul file_name then ValueError "embedded null byte"
           else if isdir w file_name then OSError 21 "Is a directory" file_name
           else OSError 2 "No such file or directory" file_name).
Proof.
  intros Hno.
  destruct (failure w file_name RPlusB) as [e|] eqn:E.
  - exists e. rewrite (cr_cleaner_fails _ _ _ E).
    destruct (failure_cases _ _ _ _ E) as (Hro & Hun & Hfa & Hnone).
    split; [done|]. split; [done|].
    split; [|split; [|done]].
    + unfold failure in E. rewrite open_run.
      destruct (opened w file_name RPlusB) as [f|e'] eqn:Ho.
      * right. exists f, (extend w [] [EvOpen file_name RPlusB]). split; [done|].
        destruct (opened_ok_inv _ _ _ _ Ho) as [Hname _].
        rewrite (f_readlines_raises f _ e); [done|]. by rewrite Hname.
      * left. by simplify_eq.
    + intros data Hf. by destruct (Hro _ _ Hf) as (_ & _ & ->).
  - apply failure_None in E as (wr & data & Hf & [[=]| ->]).
    by destruct (Hno data).
Qed.

Lemma cr_cleaner_raises_oserror_witness :
  (∀ data, entry_at (files three_lines_world) "t.py" ≠ Some (File true data))
  ∧ cr_cleaner "t.py" false three_lines_world
    = (Raise (OSError 13 "Permission denied" "t.py"),
       extend three_lines_world [] [EvClean "t.py"; EvOpen "t.py" RPlusB])
  ∧ files (cr_cleaner "t.py" false three_lines_world).2 !! "t.py"
    = Some (File false three_lines).
Proof.
  assert (∀ data, entry_at (files three_lines_world) "t.py" ≠ Some (File true data))
    as Hno.
  { intros data. vm_compute. discriminate. }
  split; [exact Hno|].
  destruct (cr_cleaner_raises_oserror three_lines_world "t.py" Hno)
    as (e & -> & _ & _ & He & _).
  rewrite (He three_lines ltac:(reflexivity)). split; reflexivity.
Defined.

Lemma cr_cleaner_safe_run (w : world) (file_name : string) :
  cr_cleaner file_name true w
  = (Raise (UnboundLocalError "f"), extend w [] [EvClean file_name]).
Proof.
  unfold cr_cleaner. by rewrite (bind_ok _ _ _ _ _ (log_extend _ _)).
Qed.

Lemma same_files_but_extend (paths : list string) (w : world) out evs :
  same_files_but paths w (extend w out evs).
Proof. done. Qed.

(** How a call of [cr_cleaner] ends: it returns after rewriting the file,
    where it lies, or it raises and no file has changed. *)
Lemma cr_cleaner_outcome (w : world) (file_name : string) (safe_mode : bool) :
  (∃ data, safe_mode = false
           ∧ resolve (files w) file_name = Some (real_path (files w) file_name)
           ∧ files w !! real_path (files w) file_name = Some (File true data)
           ∧ cr_cleaner file_name safe_mode w
             = (Ok PyNone,
                World (dirs w)
                  (<[real_path (files w) file_name := File true (cleaned data)]> (files w))
                  (stdin w) (stdout w)
                  (trace w ++ [EvClean file_name; EvOpen file_name RPlusB])))
  ∨ (∃ e evs, cr_cleaner file_name safe_mode w = (Raise e, extend w [] evs)).
Proof.
  destruct safe_mode.
  - right. eexists _, _. apply cr_cleaner_safe_run.
  - destruct (failure w file_name RPlusB) as [e|] eqn:E.
    + right. eexists _, _. by apply cr_cleaner_fails.
    + apply failure_None in E as (wr & data & Hf & [[=]| ->]).
      apply entry_at_resolve in Hf as [Hres Hf].
      left. exists data. by rewrite (cr_cleaner_run_at _ _ _ _ Hres Hf).
Qed.

Lemma cr_cleaner_same_files_but (w : world) (file_name : string) (safe_mode : bool) :
  same_files_but [real_path (files w) file_name] w (cr_cleaner file_name safe_mode w).2
  ∧ stdin (cr_cleaner file_name safe_mode w).2 = stdin w
  ∧ stdout (cr_cleaner file_name safe_mode w).2 = stdout w.
Proof.
  destruct (cr_cleaner_outcome w file_name safe_mode)
    as [(data & _ & _ & Hf & ->)|(e & evs & ->)].
  - cbn [snd]. split; [|done]. split; [done|]. cbn [files]. split; [|split].
    + apply dom_insert_lookup_L. by rewrite Hf.
    + by eapply insert_file_same_links.
    + intros p Hp. apply lookup_insert_ne. intros <-. apply Hp, list_elem_of_here.
  - cbn [snd extend stdin stdout]. rewrite app_nil_r. by split.
Qed.

(** What a path leads to is as it was, when the files that changed lie
    elsewhere. *)
Lemma same_files_but_entry_at (paths : list string) (w w' : world) (p : string) :
  same_files_but paths w w' →
  real_path (files w') p = real_path (files w) p
  ∧ (real_path (files w) p ∉ paths → entry_at (files w') p = entry_at (files w) p).
Proof.
  intros (_ & _ & Hlinks & Hother).
  split; [by apply real_path_same_links|].
  unfold entry_at, real_path. rewrite (resolve_same_links _ _ p Hlinks).
  destruct (resolve (files w) p) as [real|]; [|done]. apply Hother.
Qed.

(** X7: whatever the path, the world and [safe_mode], and whether it returns
    or raises, [cr_cleaner] prints nothing, reads nothing from the input,
    changes no directory, neither adds a path to the file system nor removes
    one, moves no link, and changes no file but the one its path leads to:
    every path that does not lead to that file, directly or through links,
    leads to what it led to before. *)
Theorem cr_cleaner_touches_one_file (w : world) (file_name : string)
    (safe_mode : bool) :
  let w' := (cr_cleaner file_name safe_mode w).2 in
  dirs w' = dirs w
  ∧ dom (files w') = dom (files w)
  ∧ (∀ p, p ≠ real_path (files w) file_name → files w' !! p = files w !! p)
  ∧ (∀ p, real_path (files w') p = real_path (files w) p)
  ∧ (∀ p, real_path (files w) p ≠ real_path (files w) file_name →
          entry_at (files w') p = entry_at (files w) p)
  ∧ stdin w' = stdin w
  ∧ stdout w' = stdout w.
Proof.
  destruct (cr_cleaner_same_files_but w file_name safe_mode) as (Hsame & Hin & Hout).
  pose proof Hsame as (Hd & Hdom & Hlinks & Hother).
  split; [done|]. split; [done|].
  split; [|split; [|split; [|done]]].
  - intros p Hp. apply Hother. by intros ->%list_elem_of_singleton.
  - intros p. by apply (same_files_but_entry_at _ _ _ p Hsame).
  - intros p Hp. apply (same_files_but_entry_at _ _ _ p Hsame).
    by intros ?%list_elem_of_singleton.
Qed.

(** ** The loop of [cr_finder] *)

Lemma same_files_but_trans (ps1 ps2 ps : list string) (w w1 w2 : world) :
  same_files_but ps1 w w1 → same_files_but ps2 w1 w2 →
  ps1 ⊆ ps → ps2 ⊆ ps →
  same_files_but ps w w2.
Proof.
  intros (Hd1 & Hdom1 & Hl1 & Hf1) (Hd2 & Hdom2 & Hl2 & Hf2) Hs1 Hs2.
  split; [congruence|]. split; [congruence|]. split.
  - intros p. by rewrite Hl2, Hl1.
  - intros p Hp. rewrite Hf2, Hf1; [done | |]; intros Hin; apply Hp; auto.
Qed.

Lemma has_crlf_line_false (data : bytes) :
  has_crlf_line data = false → cleaned data = data.
Proof.
  intros H. apply cleaned_clean. unfold no_line_endswith, has_crlf_line in *.
  apply forallb_forall. intros l Hl. apply negb_true_iff.
  destruct (Bytes.endswith l CRLF) eqn:E; [|done].
  assert (existsb (fun l => Bytes.endswith l CRLF) (Bytes.splitlines data) = true)
    as Hex by (apply existsb_exists; eauto).
  congruence.
Qed.

Section Finder_loop.

Variables (rest : list string) (verbose : bool).

(** One turn of the loop of [cr_finder] in clean mode without [safe_mode]:
    the file is rewritten, where it lies, and the loop goes on; or the file
    is read-only and has a CR+LF line, and the loop ends with the error of
    [open]; or the path leads to no file with a CR+LF line and the loop goes
    on. *)
Lemma cr_finder_loop_clean_step (file_path : string) (w : world) :
  ∃ out evs,
    Forall (fun ev => event_path ev = file_path) evs
    ∧ ((∃ data,
          resolve (files w) file_path = Some (real_path (files w) file_path)
          ∧ files w !! real_path (files w) file_path = Some (File true data)
          ∧ has_crlf_line data = true
          ∧ cr_finder_loop (file_path :: rest) false verbose false w
            = cr_finder_loop rest false verbose false
                (World (dirs w)
                   (<[real_path (files w) file_path := File true (cleaned data)]>
                      (files w))
                   (stdin w) (stdout w ++ out) (trace w ++ evs)))
       ∨ (∃ data,
            entry_at (files w) file_path = Some (File false data)
            ∧ has_crlf_line data = true
            ∧ cr_finder_loop (file_path :: rest) false verbose false w
              = (Raise (OSError 13 "Permission denied" file_path), extend w out evs))
       ∨ ((∀ writable data,
             entry_at (files w) file_path = Some (File writable data) →
             has_crlf_line data = false)
          ∧ cr_finder_loop (file_path :: rest) false verbose false w
            = cr_finder_loop rest false verbose false (extend w out evs))).
Proof.
  destruct (read_failure w file_path) as [e|] eqn:E.
  - exists [cant_read file_path e], [EvOpen file_path RB].
    split; [|right; right; split].
    + by repeat constructor.
    + intros wr data Hf. apply read_failure_file in Hf. congruence.
    + cbn [cr_finder_loop].
      by rewrite (bind_ok _ _ _ _ _ (cr_infile_searching_unreadable _ _ verbose _ E)).
  - apply read_failure_None in E as (wr & data & Hf).
    destruct (inspect_readable w file_path wr verbose data Hf) as (o & t & Hi & _ & Ht).
    destruct (has_crlf_line data) eqn:Hcr.
    + destruct wr.
      * exists o, (t ++ [EvClean file_path; EvOpen file_path RPlusB]).
        split; [apply Forall_app; split; [done | by repeat constructor]|].
        left. exists data. destruct (entry_at_resolve _ _ _ Hf) as [Hres Hreal].
        split; [done|]. split; [done|]. split; [done|].
        cbn [cr_finder_loop]. rewrite (bind_ok _ _ _ _ _ Hi).
        cbn [truthy negb andb].
        pose proof (cr_cleaner_run_at (extend w o t) file_path _ data Hres Hreal) as Hrun.
        cbn [extend dirs files stdin stdout trace] in Hrun.
        rewrite <- app_assoc in Hrun.
        by rewrite (bind_ok _ _ _ _ _ (bind_ok _ _ _ _ _ Hrun)).
      * exists o, (t ++ [EvClean file_path; EvOpen file_path RPlusB]).
        split; [apply Forall_app; split; [done | by repeat constructor]|].
        right; left. exists data. split; [done|]. split; [done|].
        cbn [cr_finder_loop]. rewrite (bind_ok _ _ _ _ _ Hi).
        cbn [truthy negb andb].
        assert (failure (extend w o t) file_path RPlusB
                = Some (OSError 13 "Permission denied" file_path)) as Hfail.
        { unfold failure.
          destruct (opened_at_file (extend w o t) file_path RPlusB false data Hf)
            as [-> _].
          reflexivity. }
        pose proof (cr_cleaner_fails _ _ _ Hfail) as Hrun.
        rewrite extend_extend, app_nil_r in Hrun.
        by rewrite (bind_raise _ _ _ _ _ (bind_raise _ _ _ _ _ Hrun)).
    + exists o, t. split; [done|]. right; right. split.
      * intros wr' data' Hf'. rewrite Hf in Hf'. by simplify_eq.
      * cbn [cr_finder_loop]. by rewrite (bind_ok _ _ _ _ _ Hi).
Qed.

End Finder_loop.

(** X8: the loop of [cr_finder] in clean mode stops at a read-only file
    that has a CR+LF line: the [PermissionError] of [open] leaves
    [cr_finder], the file is as it was, and the paths after it are neither
    inspected nor rewritten (every event of the run is about this file). *)
Theorem cr_finder_stops_at_read_only (w : world) (file_path : string)
    (rest : list string) (verbose : bool) (data : bytes) :
  files w !! file_path = Some (File false data) →
  has_crlf_line data = true →
  ∃ out evs,
    cr_finder_loop (file_path :: rest) false verbose false w
    = (Raise (OSError 13 "Permission denied" file_path), extend w out evs)
    ∧ Forall (fun ev => event_path ev = file_path) evs.
Proof.
  intros Hf Hcr.
  destruct (cr_finder_loop_clean_step rest verbose file_path w)
    as (out & evs & Hevs & [(d & _ & Hf' & _)|[(d & _ & _ & Hrun)|[Hno _]]]).
  - rewrite (real_path_file _ _ _ _ Hf), Hf in Hf'. done.
  - by exists out, evs.
  - rewrite (Hno _ _ (entry_at_file _ _ _ _ Hf)) in Hcr. done.
Qed.

Lemma cr_finder_stops_at_read_only_witness :
  files three_lines_world !! "t.py" = Some (File false three_lines)
  ∧ has_crlf_line three_lines = true
  ∧ (cr_finder_loop ["t.py"; "u.py"] false false false three_lines_world).1
    = Raise (OSError 13 "Permission denied" "t.py").
Proof.
  split; [reflexivity|]. split; [reflexivity|].
  destruct (cr_finder_stops_at_read_only three_lines_world "t.py" ["u.py"] false
              three_lines ltac:(reflexivity) ltac:(reflexivity)) as (o & t & -> & _).
  reflexivity.
Defined.

Lemma same_files_but_refl (paths : list string) (w : world) : same_files_but paths w w.
Proof. done. Qed.

Lemma same_files_but_map_real_path (paths : list string) (ps : list string)
    (w w' : world) :
  same_files_but ps w w' →
  map (real_path (files w')) paths = map (real_path (files w)) paths.
Proof.
  intros (_ & _ & Hlinks & _). apply map_ext. intros p.
  by apply real_path_same_links.
Qed.

Lemma cr_finder_loop_same_files_but (paths : list string)
    (only_inspect verbose safe_mode : bool) :
  ∀ w, same_files_but (map (real_path (files w)) paths) w
         (cr_finder_loop paths only_inspect verbose safe_mode w).2.
Proof.
  induction paths as [|p rest IH]; intros w; [done|].
  cbn [cr_finder_loop map].
  destruct (cr_infile_searching_reads_only w p verbose) as (v & o & t & Hi & _).
  rewrite (bind_ok _ _ _ _ _ Hi).
  set (rp := real_path (files w) p). set (rs := map (real_path (files w)) rest).
  assert (∀ X : list string, [] ⊆ X) as Hnil by (intros X x ?%elem_of_nil; done).
  assert ([rp] ⊆ rp :: rs) as Hp.
  { intros x ->%list_elem_of_singleton. apply list_elem_of_here. }
  assert (rs ⊆ rp :: rs) as Hrest by (intros x ?; by apply list_elem_of_further).
  assert (same_files_but [rp] w (extend w o t)) as H1 by done.
  destruct (truthy v && negb only_inspect).
  - pose proof (cr_cleaner_same_files_but (extend w o t) p safe_mode) as [H2 _].
    change (real_path (files (extend w o t)) p) with rp in H2.
    destruct (cr_cleaner p safe_mode (extend w o t)) as [[r|e] w2] eqn:Hc.
    + rewrite (bind_ok _ _ _ _ _ (bind_ok _ _ _ _ _ Hc)). cbn [mret M_ret ret].
      cbn [snd] in H2. specialize (IH w2).
      rewrite (same_files_but_map_real_path rest _ _ _ H2) in IH.
      eapply same_files_but_trans; [|apply IH|exact Hp|exact Hrest].
      eapply same_files_but_trans; [exact H1|exact H2|done..].
    + rewrite (bind_raise _ _ _ _ _ (bind_raise _ _ _ _ _ Hc)). cbn [snd] in *.
      eapply same_files_but_trans; [exact H1|exact H2|done..].
  - rewrite (bind_ok _ _ (extend w o t) (extend w o t) tt eq_refl).
    eapply same_files_but_trans; [exact H1|apply IH|exact Hp|exact Hrest].
Qed.

Lemma cr_finder_same_files_but (module_file : string) (w : world)
    (init_dir : string) (only_inspect verbose safe_mode : bool) :
  same_files_but (map (real_path (files w)) (walker module_file w init_dir)) w
    (cr_finder module_file init_dir only_inspect verbose safe_mode w).2.
Proof.
  pose proof (cr_finder_loop_same_files_but (walker module_file w init_dir)
                only_inspect verbose safe_mode w) as H.
  unfold cr_finder.
  destruct (cr_finder_loop _ only_inspect verbose safe_mode w) as [[[]|e] w1] eqn:Hl.
  - by rewrite (bind_ok _ _ _ _ _ Hl).
  - by rewrite (bind_raise _ _ _ _ _ Hl).
Qed.

(** X9: in every mode, and whether it returns or raises, [cr_finder]
    changes no directory, neither adds a path to the file system nor removes
    one, moves no link, and leaves every file as it was to which no yielded
    path leads, directly or through links: a path that leads to no such file
    leads to what it led to before. *)
Theorem cr_finder_touches_only_yielded (module_file : string) (w : world)
    (init_dir : string) (only_inspect verbose safe_mode : bool) :
  let w' := (cr_finder module_file init_dir only_inspect verbose safe_mode w).2 in
  let touched := map (real_path (files w)) (walker module_file w init_dir) in
  dirs w' = dirs w
  ∧ dom (files w') = dom (files w)
  ∧ (∀ p, p ∉ touched → files w' !! p = files w !! p)
  ∧ (∀ p, real_path (files w') p = real_path (files w) p)
  ∧ (∀ p, real_path (files w) p ∉ touched →
          entry_at (files w') p = entry_at (files w) p).
Proof.
  pose proof (cr_finder_same_files_but module_file w init_dir only_inspect verbose
                safe_mode) as Hsame.
  pose proof Hsame as (Hd & Hdom & Hlinks & Hother).
  split; [done|]. split; [done|]. split; [done|]. split.
  - intros p. by apply (same_files_but_entry_at _ _ _ p Hsame).
  - intros p. by apply (same_files_but_entry_at _ _ _ p Hsame).
Qed.



Lemma cr_finder_loop_cleans (verbose : bool) (paths : list string) :
  ∀ w w',
    cr_finder_loop paths false verbose false w = (Ok tt, w') →
    NoDup (map (real_path (files w)) paths) →
    ∀ p writable data,
      p ∈ paths →
      entry_at (files w) p = Some (File writable data) →
      entry_at (files w') p = Some (File writable (cleaned data)).
Proof.
  induction paths as [|p0 rest IH]; intros w w' Hrun Hnd p wr data Hin Hf.
  { by apply elem_of_nil in Hin. }
  cbn [map] in Hnd. apply NoDup_cons in Hnd as [Hp0 Hnd].
  set (r0 := real_path (files w) p0) in *.
  assert (∀ w1, same_files_but [r0] w w1 →
                cr_finder_loop rest false verbose false w1 = (Ok tt, w') →
                files w' !! r0 = files w1 !! r0
                ∧ (∀ q, real_path (files w') q = real_path (files w) q)
                ∧ NoDup (map (real_path (files w1)) rest)) as Hkeep.
  { intros w1 H01 H1.
    pose proof (cr_finder_loop_same_files_but rest false verbose false w1) as H1'.
    rewrite H1 in H1'. cbn [snd] in H1'.
    rewrite (same_files_but_map_real_path rest _ _ _ H01) in H1'.
    split; [|split].
    - destruct H1' as (_ & _ & _ & Hk). by apply Hk.
    - intros q.
      rewrite (proj1 (same_files_but_entry_at _ _ _ q H1')).
      apply (same_files_but_entry_at _ _ _ q H01).
    - by rewrite (same_files_but_map_real_path rest _ _ _ H01). }
  assert (p ∈ rest → real_path (files w) p ≠ r0) as Hne.
  { intros Hp Heq. apply Hp0. rewrite <- Heq. by apply list_elem_of_fmap_2. }
  destruct (entry_at_resolve _ _ _ Hf) as [Hres Hreal].
  destruct (cr_finder_loop_clean_step rest verbose p0 w)
    as (out & evs & _ & [(d & Hres0 & Hf0 & Hcr & Hstep)|[(d & _ & _ & Hstep)|[Hno Hstep]]]);
    rewrite Hstep in Hrun; [| done |].
  - fold r0 in Hres0, Hf0, Hrun.
    set (w1 := World _ _ _ _ _) in Hrun.
    assert (same_files_but [r0] w w1) as H01.
    { split; [done|]. split; [|split].
      - apply dom_insert_lookup_L. by rewrite Hf0.
      - by eapply insert_file_same_links.
      - intros q Hq. apply lookup_insert_ne. intros <-. apply Hq, list_elem_of_here. }
    destruct (Hkeep w1 H01 Hrun) as (Hr0 & Hpaths & Hnd1).
    apply elem_of_cons in Hin as [->|Hin].
    + unfold entry_at.
      assert (resolve (files w') p0 = Some r0) as ->.
      { destruct H01 as (_ & _ & Hl01 & _).
        pose proof (cr_finder_loop_same_files_but rest false verbose false w1) as H1'.
        rewrite Hrun in H1'. destruct H1' as (_ & _ & Hl1 & _).
        rewrite (resolve_same_links (files w1)), (resolve_same_links (files w)); done. }
      rewrite Hr0. cbn [w1 files]. rewrite lookup_insert_eq.
      fold r0 in Hreal. rewrite Hf0 in Hreal. by simplify_eq.
    + apply (IH _ _ Hrun Hnd1); [done|].
      rewrite (proj2 (same_files_but_entry_at _ _ _ p H01)); [done|].
      intros Heq%list_elem_of_singleton. by apply Hne.
  - assert (same_files_but [r0] w (extend w out evs)) as H01 by done.
    destruct (Hkeep _ H01 Hrun) as (Hr0 & Hpaths & Hnd1).
    apply elem_of_cons in Hin as [->|Hin].
    + rewrite (has_crlf_line_false data (Hno _ _ Hf)).
      unfold entry_at.
      assert (resolve (files w') p0 = Some r0) as ->.
      { pose proof (cr_finder_loop_same_files_but rest false verbose false
                      (extend w out evs)) as H1'.
        rewrite Hrun in H1'. destruct H1' as (_ & _ & Hl1 & _).
        rewrite (resolve_same_links (files (extend w out evs))); done. }
      by rewrite Hr0.
    + by apply (IH _ _ Hrun Hnd1).
Qed.

(** X11: when [cr_finder] in clean mode without [safe_mode] returns, and no
    two paths the walker yielded lead to the same file, every yielded path
    that led to a readable file now leads to that file with the terminating
    CR+LF of each of its lines replaced by LF, and nothing else in it
    changed (so the file is unchanged when it had no such line). *)
Theorem cr_finder_cleans_yielded (module_file : string) (w w' : world)
    (init_dir : string) (verbose : bool) :
  cr_finder module_file init_dir false verbose false w = (Ok PyNone, w') →
  NoDup (map (real_path (files w)) (walker module_file w init_dir)) →
  ∀ p writable data,
    p ∈ walker module_file w init_dir →
    entry_at (files w) p = Some (File writable data) →
    ∃ data',
      entry_at (files w') p = Some (File writable data')
      ∧ content_cleaned data data'
      ∧ data' = cr_cleaner_content data
      ∧ (has_crlf_line data = false → data' = data).
Proof.
  intros Hrun Hnd p wr data Hin Hf. exists (cleaned data).
  rewrite cr_cleaner_content_eq.
  split; [|split; [apply cleaned_content_cleaned|split; [done|]]].
  - unfold cr_finder in Hrun.
    destruct (cr_finder_loop (walker module_file w init_dir) false verbose false w)
      as [[[]|e] w1] eqn:Hl.
    + rewrite (bind_ok _ _ _ _ _ Hl) in Hrun. injection Hrun as <-.
      by eapply cr_finder_loop_cleans.
    + by rewrite (bind_raise _ _ _ _ _ Hl) in Hrun.
  - apply has_crlf_line_false.
Qed.

Lemma cr_finder_cleans_yielded_witness :
  let r := cr_finder demo_file "/tmp/x" false false false demo_world in
  r.1 = Ok PyNone
  ∧ NoDup (map (real_path (files demo_world)) (walker demo_file demo_world "/tmp/x"))
  ∧ "/tmp/x/a.py" ∈ walker demo_file demo_world "/tmp/x"
  ∧ entry_at (files demo_world) "/tmp/x/a.py"
    = Some (File true (b "print(1)" ++ CRLF ++ b "print(2)" ++ NL))
  ∧ entry_at (files r.2) "/tmp/x/a.py"
    = Some (File true (b "print(1)" ++ NL ++ b "print(2)" ++ NL)).
Proof.
  intros r.
  assert (walker demo_file demo_world "/tmp/x" = ["/tmp/x/a.py"]) as Hw by reflexivity.
  assert (NoDup (map (real_path (files demo_world)) (walker demo_file demo_world "/tmp/x")))
    as Hnd.
  { rewrite Hw. apply NoDup_singleton. }
  assert ("/tmp/x/a.py" ∈ walker demo_file demo_world "/tmp/x") as Hin.
  { rewrite Hw. apply list_elem_of_here. }
  split; [reflexivity|]. split; [exact Hnd|]. split; [exact Hin|].
  split; [reflexivity|].
  destruct (cr_finder_cleans_yielded demo_file demo_world r.2 "/tmp/x" false
              ltac:(vm_compute; reflexivity) Hnd "/tmp/x/a.py" true
              (b "print(1)" ++ CRLF ++ b "print(2)" ++ NL) Hin ltac:(reflexivity))
    as (data' & -> & _ & -> & _).
  reflexivity.
Defined.

(** ** The command line *)

Example normpath_ex :
  posixpath.normpath "/a/b/../c" = "/a/c" ∧ posixpath.normpath "//a" = "//a"
  ∧ posixpath.normpath "///a" = "/a" ∧ posixpath.normpath "a/./b/" = "a/b"
  ∧ posixpath.normpath "../a" = "../a" ∧ posixpath.normpath "/.." = "/"
  ∧ posixpath.normpath "" = "." ∧ posixpath.normpath "a/.." = "."
  ∧ posixpath.normpath "a/../../b" = "../b".
Proof. repeat split; reflexivity. Qed.

Example abspath_ex :
  posixpath.abspath "/home/u" "modules/cr_cleaner.py" = "/home/u/modules/cr_cleaner.py"
  ∧ posixpath.abspath "/home/u" "/opt/./cr_cleaner.py" = "/opt/cr_cleaner.py".
Proof. split; reflexivity. Qed.

Example split_head_ex :
  posixpath.split_head "/opt/hets/modules/cr_cleaner.py" = "/opt/hets/modules"
  ∧ posixpath.split_head "/cr_cleaner.py" = "/"
  ∧ posixpath.split_head "cr_cleaner.py" = ""
  ∧ posixpath.split_head "/opt//cr_cleaner.py" = "/opt".
Proof. repeat split; reflexivity. Qed.

Example classify_ex :
  classify "-A" = FlagAll ∧ classify "--all" = FlagAll ∧ classify "--ALL" = NoFlag
  ∧ classify "-F" = FlagFile ∧ classify "--inspect" = FlagInspect
  ∧ classify "-I" = FlagInspect ∧ classify "/tmp/b.txt" = NoFlag.
Proof. repeat split; reflexivity. Qed.

Example main_all_ex :
  let w := World {[ "/opt/hets/modules" := Dir [] ["cr_cleaner.py"; "a.py"] ]}
             {[ "/opt/hets/modules/cr_cleaner.py" := File true (b "x" ++ CRLF);
                "/opt/hets/modules/a.py" := File true (b "y" ++ CRLF) ]} [] [] [] in
  let r := main demo_file "doc" "/home/u" ["cr_cleaner.py"; "-a"] w in
  r.1 = Returned tt
  ∧ files r.2 !! "/opt/hets/modules/cr_cleaner.py" = Some (File true (b "x" ++ CRLF))
  ∧ files r.2 !! "/opt/hets/modules/a.py" = Some (File true (b "y" ++ NL)).
Proof. vm_compute. repeat split; reflexivity. Qed.

Lemma and_then_returned {A B} (m : Main A) (k : A → Main B) (w w' : world) (a : A) :
  m w = (Returned a, w') → and_then m k w = k a w'.
Proof. unfold and_then. by intros ->. Qed.

Lemma and_then_raised {A B} (m : Main A) (k : A → Main B) (w w' : world) e :
  m w = (Raised e, w') → and_then m k w = (Raised e, w').
Proof. unfold and_then. by intros ->. Qed.

Lemma warn_conflict_run (clear_task_flag : bool) (w : world) :
  ∃ out, warn_conflict clear_task_flag w = (Returned tt, extend w out []).
Proof.
  destruct clear_task_flag; cbn [warn_conflict].
  - eexists. unfold call. by rewrite print_extend.
  - exists []. by rewrite extend_nil.
Qed.

Section Script_facts.

Variables (module_file module_doc getcwd : string) (argv : list string).

(** One argument: the loop body prints at most the warning and changes
    nothing else in the world; it keeps [only_inspect] once it is set, and
    sets it for an inspect flag; only the [-f] branch raises. *)
Lemma parse_arg_run (i : nat) (arg : string) (st : locals) (w : world) :
  ∃ out,
    (∃ st', parse_arg module_file getcwd argv i arg st w
            = (Returned st', extend w out [])
            ∧ (l_only_inspect st = true ∨ classify arg = FlagInspect →
               l_only_inspect st' = true))
    ∨ (∃ e, parse_arg module_file getcwd argv i arg st w = (Raised e, extend w out [])
            ∧ parse_error e
            ∧ classify arg = FlagFile
            ∧ (argv !! (i + 2) = None → e = IndexError)).
Proof.
  unfold parse_arg.
  destruct (warn_conflict_run (l_clear_task_flag st) w) as [out Hwarn].
  destruct (classify arg) eqn:Hc.
  - exists out. left. eexists. rewrite (and_then_returned _ _ _ _ _ Hwarn).
    split; [done|]. cbn. by intros [?|?].
  - exists out. rewrite (and_then_returned _ _ _ _ _ Hwarn).
    destruct (argv !! (i + 2)) as [cwd|].
    + destruct (exists_ (extend w out []) cwd).
      * left. eexists. split; [done|]. cbn. by intros [?|?].
      * right. eexists. split; [done|]. split; [right; eauto | done].
    + right. eexists. split; [done|]. split; [by left | done].
  - exists []. rewrite extend_nil. left. eexists. split; [done|]. cbn. by intros [?|?].
  - exists []. rewrite extend_nil. left. eexists. split; [done|]. cbn. by intros [?|?].
  - exists []. rewrite extend_nil. left. eexists. split; [done|]. done.
  - exists []. rewrite extend_nil. left. eexists. split; [done|]. by intros [?|?].
Qed.


(** With [-f] as the last argument the loop raises. *)
Lemma parse_args_file_last (flag : string) (mid : list string) :
  classify flag = FlagFile →
  ∀ k st w,
    length argv = k + length mid + 2 →
    ∃ e out,
      parse_args module_file getcwd argv (enumerate_from k (mid ++ [flag])) st w
      = (Raised e, extend w out [])
      ∧ parse_error e
      ∧ (Forall (fun arg => classify arg ≠ FlagFile) mid → e = IndexError).
Proof.
  intros Hflag. induction mid as [|a mid IH]; intros k st w Hlen.
  - cbn [app enumerate_from parse_args].
    destruct (parse_arg_run k flag st w) as [o [(st1 & H1 & _)|(e & H1 & He & _ & Hix)]].
    + exfalso. revert H1. unfold parse_arg. rewrite Hflag.
      destruct (warn_conflict_run (l_clear_task_flag st) w) as [o' Hwarn].
      rewrite (and_then_returned _ _ _ _ _ Hwarn).
      rewrite (lookup_ge_None_2 argv (k + 2)) by (simpl in Hlen; lia). done.
    + exists e, o. rewrite (and_then_raised _ _ _ _ _ H1). split; [done|].
      split; [done|]. intros _. apply Hix, lookup_ge_None_2. simpl in Hlen. lia.
  - cbn [app enumerate_from parse_args].
    destruct (parse_arg_run k a st w) as [o [(st1 & H1 & _)|(e & H1 & He & Ha & _)]].
    + rewrite (and_then_returned _ _ _ _ _ H1).
      destruct (IH (S k) st1 (extend w o [])) as (e & o2 & H2 & He & Hix).
      { simpl in Hlen. lia. }
      exists e, (o ++ o2). rewrite H2, extend_extend. split; [done|]. split; [done|].
      intros Hmid. apply Hix. by apply Forall_cons in Hmid as [_ ?].
    + exists e, o. rewrite (and_then_raised _ _ _ _ _ H1). split; [done|].
      split; [done|]. intros Hmid. by apply Forall_cons in Hmid as [? _].
Qed.

(** Without [-a] and [-f] the loop returns, with the root still empty. *)
Lemma parse_args_no_root (l : list string) :
  forallb (fun arg => negb (names_root arg)) l = true →
  ∀ k st w,
    ∃ st', parse_args module_file getcwd argv (enumerate_from k l) st w
           = (Returned st', w)
           ∧ l_cwd st' = l_cwd st
           ∧ l_only_inspect st' = l_only_inspect st || existsb is_inspect_flag l.
Proof.
  induction l as [|a l IH]; intros Hl k st w.
  - exists st. by rewrite orb_false_r.
  - cbn [forallb] in Hl. apply andb_true_iff in Hl as [Ha Hl].
    cbn [enumerate_from parse_args existsb].
    unfold names_root in Ha. unfold is_inspect_flag at 1.
    assert (∃ st1, parse_arg module_file getcwd argv k a st w = (Returned st1, w)
                   ∧ l_cwd st1 = l_cwd st
                   ∧ l_only_inspect st1
                     = l_only_inspect st
                       || match classify a with FlagInspect => true | _ => false end)
      as (st1 & H1 & Hcwd & Hins).
    { unfold parse_arg. destruct (classify a); try done; eexists; split; try done;
        cbn; by rewrite ?orb_false_r, ?orb_true_r. }
    rewrite (and_then_returned _ _ _ _ _ H1).
    destruct (IH Hl (S k) st1 w) as (st2 & H2 & Hcwd2 & Hins2).
    exists st2. split; [done|]. split; [congruence|].
    by rewrite Hins2, Hins, orb_assoc.
Qed.


(** With nothing at the empty path, a script without a root reads and
    rewrites no file: it returns in inspect mode and raises otherwise. *)
Lemma run_no_root (st : locals) (w : world) :
  l_cwd st = "" → dirs w !! "" = None → files w !! "" = None →
  ∃ out evs,
    (run module_file st w).2 = extend w out evs
    ∧ if l_only_inspect st then (run module_file st w).1 = Returned tt
      else ∃ e, (run module_file st w).1 = Raised (ModuleExn e).
Proof.
  intros Hcwd Hd Hf. unfold run, isdir. rewrite Hcwd, Hd.
  rewrite bool_decide_eq_false_2 by by intros [? ?].
  assert (∃ o t, (if l_verbose st
                  then call (cr_infile_searching "" (l_verbose st);; mret tt)
                  else fun w => (Returned tt, w)) w = (Returned tt, extend w o t))
    as (o & t & H1).
  { destruct (l_verbose st).
    - destruct (cr_infile_searching_reads_only w "" true) as (v & o & t & Hs & _).
      exists o, t. unfold call. by rewrite (bind_ok _ _ _ _ _ Hs).
    - exists [], []. by rewrite extend_nil. }
  rewrite (and_then_returned _ _ _ _ _ H1).
  destruct (l_only_inspect st); cbn [negb].
  - by exists o, t.
  - destruct (cr_cleaner_outcome (extend w o t) "" (l_safe_mode st))
      as [(data & _ & _ & Hfile & _)|(e & evs & Hc)].
    + cbn [extend files] in Hfile.
      rewrite real_path_no_link in Hfile by by rewrite Hf.
      congruence.
    + exists o, (t ++ evs). unfold call.
      rewrite (bind_raise _ _ _ _ _ Hc), extend_extend, app_nil_r. eauto.
Qed.

End Script_facts.


Lemma classify_file (arg : string) :
  Str.lower arg = "-f" ∨ arg = "--file" → classify arg = FlagFile.
Proof.
  intros [H| ->]; [|reflexivity].
  unfold classify. rewrite H. cbn [String.eqb Ascii.eqb Bool.eqb orb].
  destruct (String.eqb_spec arg "--all") as [->|_]; [by vm_compute in H|].
  reflexivity.
Qed.




(** X13: when no argument is [-a], [--all], [-f] or [--file], and nothing is
    at the empty path, the script rewrites no file: with an inspect flag it
    returns, and without one it raises from [cr_cleaner], called on the
    empty path. *)
Theorem main_without_root (module_file module_doc getcwd : string)
    (w : world) (prog : string) (args : list string) :
  args ≠ [] →
  forallb (fun arg => negb (names_root arg)) args = true →
  dirs w !! "" = None →
  files w !! "" = None →
  let r := main module_file module_doc getcwd (prog :: args) w in
  files r.2 = files w
  ∧ if existsb is_inspect_flag args then r.1 = Returned tt
    else ∃ e, r.1 = Raised (ModuleExn e).
Proof.
  intros Hne Hargs Hd Hf r. subst r.
  destruct args as [|a rest]; [done|].
  unfold main. change (1 <? length (prog :: a :: rest)) with true. cbv iota.
  unfold enumerate. cbn [drop].
  destruct (parse_args_no_root module_file getcwd (prog :: a :: rest) (a :: rest) Hargs
              0 (Locals false false false false "") w) as (st & Hp & Hcwd & Hins).
  rewrite (and_then_returned _ _ _ _ _ Hp).
  destruct (run_no_root module_file st w Hcwd Hd Hf) as (o & t & Hw & Hr).
  rewrite Hw. split; [done|].
  rewrite Hins in Hr. exact Hr.
Qed.

Lemma main_without_root_witness :
  let r := main demo_file "" "/" ["cr_cleaner.py"; "-v"] demo_world in
  ["-v"] ≠ []
  ∧ forallb (fun arg => negb (names_root arg)) ["-v"] = true
  ∧ dirs demo_world !! "" = None
  ∧ files demo_world !! "" = None
  ∧ files r.2 = files demo_world
  ∧ ∃ e, r.1 = Raised (ModuleExn e).
Proof.
  intros r. split; [done|]. split; [reflexivity|]. split; [reflexivity|].
  split; [reflexivity|].
  apply (main_without_root demo_file "" "/" demo_world "cr_cleaner.py" ["-v"]);
    [done | reflexivity..].
Defined.

(** X14: when the last argument is [-f] (in either case) or [--file], the
    script raises while reading the arguments and changes no file; when no
    earlier argument is such a flag, what it raises is the [IndexError] of
    [sys.argv[i+2]]. *)
Theorem main_file_flag_last (module_file module_doc getcwd : string)
    (w : world) (prog flag : string) (mid : list string) :
  Str.lower flag = "-f" ∨ flag = "--file" →
  let r := main module_file module_doc getcwd (prog :: (mid ++ [flag])) w in
  ∃ e, r.1 = Raised e
       ∧ parse_error e
       ∧ (Forall (fun arg => classify arg ≠ FlagFile) mid → e = IndexError)
       ∧ files r.2 = files w.
Proof.
  intros Hflag%classify_file r. subst r. unfold main.
  assert ((1 <? length (prog :: (mid ++ [flag]))) = true) as ->.
  { apply Nat.ltb_lt. cbn [length]. rewrite length_app. simpl. lia. }
  unfold enumerate. cbn [drop].
  destruct (parse_args_file_last module_file getcwd (prog :: (mid ++ [flag])) flag mid
              Hflag 0 (Locals false false false false "") w) as (e & o & Hp & He & Hix).
  { cbn [length]. rewrite length_app. simpl. lia. }
  exists e. by rewrite (and_then_raised _ _ _ _ _ Hp).
Qed.

Lemma main_file_flag_last_witness :
  (Str.lower "-F" = "-f" ∨ "-F" = "--file")
  ∧ (main demo_file "" "/" ("cr_cleaner.py" :: (["-v"] ++ ["-F"])) demo_world).1
    = Raised IndexError.
Proof.
  split; [by left|].
  destruct (main_file_flag_last demo_file "" "/" demo_world "cr_cleaner.py" "-F" ["-v"]
              ltac:(by left)) as (e & -> & _ & Hix & _).
  f_equal. apply Hix. by repeat constructor.
Defined.

(** X15: called with [-f] and the path of a writable file that is not a
    directory (and is not itself spelled like a flag), the script passes the
    file to [cr_cleaner] at once: without looking at its extension and
    without inspecting it first, it leaves the file with every CR+LF line end
    replaced by LF, prints nothing and returns. *)
Theorem main_single_file (module_file module_doc getcwd : string)
    (w : world) (prog flag path : string) (data : bytes) :
  Str.lower flag = "-f" ∨ flag = "--file" →
  classify path = NoFlag →
  dirs w !! path = None →
  files w !! path = Some (File true data) →
  main module_file module_doc getcwd [prog; flag; path] w
  = (Returned tt,
     World (dirs w) (<[path := File true (cr_cleaner_content data)]> (files w))
       (stdin w) (stdout w) (trace w ++ [EvClean path; EvOpen path RPlusB])).
Proof.
  intros Hflag%classify_file Hpath Hd Hf.
  unfold main. change (1 <? length [prog; flag; path]) with true. cbv iota.
  unfold enumerate. cbn [drop enumerate_from].
  assert (exists_ w path = true) as Hex.
  { unfold exists_. rewrite (entry_at_file _ _ _ _ Hf).
    rewrite bool_decide_eq_true_2 by done. apply orb_true_r. }
  assert (isdir w path = false) as Hdir.
  { unfold isdir. rewrite Hd. apply bool_decide_eq_false_2. by intros [? ?]. }
  assert (parse_arg module_file getcwd [prog; flag; path] 0 flag
            (Locals false false false false "") w
          = (Returned (Locals false false false true path), w)) as H1.
  { unfold parse_arg. rewrite Hflag. unfold and_then, warn_conflict.
    cbn [l_clear_task_flag l_verbose l_safe_mode l_only_inspect].
    change ([prog; flag; path] !! (0 + 2)) with (Some path). cbv beta iota.
    by rewrite Hex. }
  assert (parse_arg module_file getcwd [prog; flag; path] 1 path
            (Locals false false false true path) w
          = (Returned (Locals false false false true path), w)) as H2.
  { unfold parse_arg. by rewrite Hpath. }
  assert (parse_args module_file getcwd [prog; flag; path] [(0, flag); (1, path)]
            (Locals false false false false "") w
          = (Returned (Locals false false false true path), w)) as Hparse.
  { cbn [parse_args].
    by rewrite (and_then_returned _ _ _ _ _ H1), (and_then_returned _ _ _ _ _ H2). }
  rewrite (and_then_returned _ _ _ _ _ Hparse).
  unfold run, and_then, call. cbn [l_cwd l_verbose l_only_inspect l_safe_mode negb].
  rewrite Hdir, (bind_ok _ _ _ _ _ (cr_cleaner_run _ _ _ Hf)).
  by rewrite cr_cleaner_content_eq.
Qed.

Lemma main_single_file_witness :
  (Str.lower "-f" = "-f" ∨ "-f" = "--file")
  ∧ classify "/tmp/b.txt" = NoFlag
  ∧ dirs txt_world !! "/tmp/b.txt" = None
  ∧ files txt_world !! "/tmp/b.txt" = Some (File true (b "ok" ++ CRLF ++ b "fine" ++ NL))
  ∧ files (main demo_file "" "/" ["cr_cleaner.py"; "-f"; "/tmp/b.txt"] txt_world).2
    !! "/tmp/b.txt" = Some (File true (b "ok" ++ NL ++ b "fine" ++ NL)).
Proof.
  split; [by left|]. split; [reflexivity|]. split; [reflexivity|]. split; [reflexivity|].
  rewrite (main_single_file demo_file "" "/" txt_world "cr_cleaner.py" "-f" "/tmp/b.txt"
             (b "ok" ++ CRLF ++ b "fine" ++ NL)); [|by left|reflexivity..].
  cbn [snd files]. rewrite lookup_insert_eq. reflexivity.
Defined.

(** X16: called with [-f] first and a path at which there is neither a
    directory nor a file, the script raises [FileNotFoundError] with the
    message naming the path, before anything is printed, opened or read;
    the arguments after the path are not looked at. *)
Theorem main_file_not_found (module_file module_doc getcwd : string)
    (w : world) (prog flag path : string) (rest : list string) :
  Str.lower flag = "-f" ∨ flag = "--file" →
  exists_ w path = false →
  main module_file module_doc getcwd (prog :: flag :: path :: rest) w
  = (Raised (FileNotFoundError ("Can't find path: " +:+ path +:+ ".")), w).
Proof.
  intros Hflag%classify_file Hex.
  unfold main. change (1 <? length (prog :: flag :: path :: rest)) with true. cbv iota.
  unfold enumerate. cbn [drop enumerate_from].
  assert (parse_arg module_file getcwd (prog :: flag :: path :: rest) 0 flag
            (Locals false false false false "") w
          = (Raised (FileNotFoundError ("Can't find path: " +:+ path +:+ ".")), w)) as H1.
  { unfold parse_arg. rewrite Hflag. unfold and_then, warn_conflict.
    cbn [l_clear_task_flag].
    change ((prog :: flag :: path :: rest) !! (0 + 2)) with (Some path).
    cbv beta iota. by rewrite Hex. }
  assert (parse_args module_file getcwd (prog :: flag :: path :: rest)
            ((0, flag) :: (1, path) :: enumerate_from 2 rest)
            (Locals false false false false "") w
          = (Raised (FileNotFoundError ("Can't find path: " +:+ path +:+ ".")), w))
    as Hparse.
  { cbn [parse_args]. by rewrite (and_then_raised _ _ _ _ _ H1). }
  by rewrite (and_then_raised _ _ _ _ _ Hparse).
Qed.

Lemma main_file_not_found_witness :
  (Str.lower "--file" = "-f" ∨ "--file" = "--file")
  ∧ exists_ demo_world "/tmp/y" = false
  ∧ main demo_file "" "/" ["cr_cleaner.py"; "--file"; "/tmp/y"; "-v"] demo_world
    = (Raised (FileNotFoundError "Can't find path: /tmp/y."), demo_world).
Proof.
  split; [by right|]. split; [reflexivity|].
  apply (main_file_not_found demo_file "" "/" demo_world "cr_cleaner.py" "--file" "/tmp/y"
           ["-v"]); [by right | reflexivity].
Defined.


(** ** File names and extensions *)

Lemma append_cons (a : ascii) (s t : string) : String a s +:+ t = String a (s +:+ t).
Proof. reflexivity. Qed.

Lemma append_nil_l (t : string) : "" +:+ t = t.
Proof. reflexivity. Qed.

Lemma append_assoc (s t u : string) : (s +:+ t) +:+ u = s +:+ t +:+ u.
Proof. induction s as [|a s IH]; [done|]. by rewrite !append_cons, IH. Qed.

Lemma append_length (s t : string) :
  String.length (s +:+ t) = String.length s + String.length t.
Proof. induction s as [|a s IH]; [done|]. rewrite append_cons. simpl. by rewrite IH. Qed.

Lemma rfind_from_app (c : ascii) (x y : string) :
  ∀ i last,
    Str.rfind_from c i (x +:+ y) last
    = Str.rfind_from c (i + Z.of_nat (String.length x)) y (Str.rfind_from c i x last).
Proof.
  induction x as [|a x IH]; intros i last.
  - rewrite append_nil_l. cbn [String.length Str.rfind_from]. by rewrite Z.add_0_r.
  - rewrite append_cons. cbn [Str.rfind_from String.length]. rewrite IH.
    by replace (i + 1 + Z.of_nat (String.length x))%Z
      with (i + Z.of_nat (S (String.length x)))%Z by lia.
Qed.

Lemma contains_char_cons (a c : ascii) (s : string) :
  Str.contains (String a s) (String c "") = false →
  Ascii.eqb a c = false ∧ Str.contains s (String c "") = false.
Proof.
  cbn [Str.contains]. intros [Hp Hs]%orb_false_elim. split; [|done].
  simpl in Hp. destruct (Ascii.ascii_dec c a) as [->|Hne].
  - by destruct s.
  - apply Ascii.eqb_neq. congruence.
Qed.

Lemma rfind_from_absent (c : ascii) (s : string) :
  Str.contains s (String c "") = false →
  ∀ i last, Str.rfind_from c i s last = last.
Proof.
  induction s as [|a s IH]; intros Hs i last; [done|].
  apply contains_char_cons in Hs as [Ha Hs].
  cbn [Str.rfind_from]. by rewrite Ha, IH.
Qed.

Lemma drop_app_length (x y : string) : Str.drop (String.length x) (x +:+ y) = y.
Proof. induction x as [|a x IH]; [by destruct y | done]. Qed.

Lemma endswith_char_split (s : string) (c : ascii) :
  Str.endswith_char s c = true → ∃ s', s = s' +:+ String c "".
Proof.
  induction s as [|a s IH]; [done|]. cbn [Str.endswith_char].
  destruct s as [|a' s].
  - intros ->%Ascii.eqb_eq. by exists "".
  - intros [s' ->]%IH. by exists (String a s').
Qed.

(** The last component of a joined path is the name that was joined. *)
Lemma split_tail_join (cur_dir fname : string) :
  Str.contains fname "/" = false →
  os_path.split_tail (os_path.join cur_dir fname) = fname.
Proof.
  intros Hn.
  assert (∀ x, os_path.split_tail ((x +:+ "/") +:+ fname) = fname) as Hslash.
  { intros x. unfold os_path.split_tail, Str.rfind.
    rewrite rfind_from_app, (rfind_from_absent "/" fname Hn).
    rewrite (rfind_from_app "/" x "/"). cbn [Str.rfind_from String.length].
    change (Ascii.eqb "/" "/") with true. cbv iota.
    replace (Z.to_nat (0 + Z.of_nat (String.length x) + 1))
      with (String.length (x +:+ "/")) by (rewrite append_length; simpl; lia).
    apply drop_app_length. }
  unfold os_path.join.
  assert (String.prefix "/" fname = false) as ->.
  { destruct fname; [done|]. cbn [Str.contains] in Hn.
    by apply orb_false_elim in Hn as [? _]. }
  destruct (String.eqb_spec cur_dir "") as [->|_]; cbn [orb].
  - rewrite append_nil_l. unfold os_path.split_tail, Str.rfind.
    by rewrite (rfind_from_absent "/" fname Hn).
  - destruct (Str.endswith_char cur_dir "/") eqn:E.
    + apply endswith_char_split in E as [x ->]. apply Hslash.
    + rewrite <- append_assoc. apply Hslash.
Qed.

Lemma os_walk_names (t : dirtree) :
  ∀ top, names_ok t = true →
         Forall (fun e => forallb entry_name e.2 = true) (os_walk top t).
Proof.
  induction t as [|sub_dirs sub_files IH] using dirtree_nested_ind;
    intros top Hok; cbn [os_walk]; [constructor|].
  cbn [names_ok] in Hok. apply andb_true_iff in Hok as [Hdirs Hfiles].
  constructor; [done|].
  clear Hfiles. induction sub_dirs as [|[n sub] ds IHds]; [constructor|].
  cbn [forallb fst snd] in Hdirs.
  apply andb_true_iff in Hdirs as [[_ Hsub]%andb_true_iff Hds].
  apply Forall_cons in IH as [IHsub IHrest].
  cbn [flat_map]. apply Forall_app. split; [by apply IHsub | by apply IHds].
Qed.

Lemma entry_name_no_slash (n : string) :
  entry_name n = true → Str.contains n "/" = false.
Proof. unfold entry_name. by intros [_ ?%negb_true_iff]%andb_true_iff. Qed.

(** In a tree with proper names, the walker yields no path whose last
    component is the file name of the module. *)
Lemma walker_not_module_name (module_file : string) (w : world) (init_path p : string)
    (t : dirtree) :
  dirs w !! init_path = Some t → names_ok t = true →
  p ∈ walker module_file w init_path →
  os_path.split_tail p ≠ os_path.split_tail module_file.
Proof.
  intros Hd Hok. unfold walker, walk. rewrite Hd.
  rewrite list_elem_of_In, in_flat_map.
  intros (e & He%list_elem_of_In & Hp%list_elem_of_In).
  apply walker_dir_elem in Hp as (_ & fname & Hf & Hv & ->).
  pose proof (os_walk_names t init_path Hok) as Hnames.
  rewrite Forall_forall in Hnames. specialize (Hnames e He).
  rewrite forallb_forall in Hnames.
  rewrite split_tail_join
    by (apply entry_name_no_slash, Hnames; by apply list_elem_of_In).
  rewrite is_valid_truthy in Hv. apply andb_true_iff in Hv as [Hv _].
  apply negb_true_iff in Hv. by apply String.eqb_neq.
Qed.

(** X17: in a tree whose entries have proper names, [cr_finder] never
    changes a file whose name is the file name of the module, in whatever
    directory the file lies and in whatever mode it runs, as long as the file
    has this name only: it is no link itself, and no link that the walker
    yields leads to it.  So the tool does not rewrite itself, nor any
    namesake, under the name [is_valid] filters; a link under another name
    is not covered by the filter. *)
Theorem cr_finder_spares_module_name (module_file : string) (w : world)
    (init_dir : string) (t : dirtree) (only_inspect verbose safe_mode : bool)
    (p : string) :
  dirs w !! init_dir = Some t →
  names_ok t = true →
  os_path.split_tail p = os_path.split_tail module_file →
  link_of (files w !! p) = None →
  (∀ q target, q ∈ walker module_file w init_dir →
               files w !! q = Some (Link target) → real_path (files w) q ≠ p) →
  files (cr_finder module_file init_dir only_inspect verbose safe_mode w).2 !! p
  = files w !! p
  ∧ entry_at (files (cr_finder module_file init_dir only_inspect verbose safe_mode w).2) p
    = entry_at (files w) p.
Proof.
  intros Hd Hok Hp Hnolink Hlinks.
  pose proof (cr_finder_same_files_but module_file w init_dir only_inspect verbose
                safe_mode) as Hsame.
  assert (p ∉ map (real_path (files w)) (walker module_file w init_dir)) as Hnot.
  { intros (q & Hq & Hin)%list_elem_of_fmap.
    destruct (files w !! q) as [[| | |target]|] eqn:E.
    - rewrite (real_path_file _ _ _ _ E) in Hq. subst q.
      by eapply walker_not_module_name.
    - rewrite real_path_no_link in Hq by by rewrite E. subst q.
      by eapply walker_not_module_name.
    - rewrite real_path_no_link in Hq by by rewrite E. subst q.
      by eapply walker_not_module_name.
    - by eapply Hlinks.
    - rewrite real_path_no_link in Hq by by rewrite E. subst q.
      by eapply walker_not_module_name. }
  split.
  - destruct Hsame as (_ & _ & _ & Hkeep). by apply Hkeep.
  - apply (same_files_but_entry_at _ _ _ p Hsame).
    by rewrite (real_path_no_link _ _ Hnolink).
Qed.

Lemma cr_finder_spares_module_name_witness :
  let w := World {[ "/opt/hets/modules" := Dir [] ["cr_cleaner.py"; "a.py"; "b.py"] ]}
             {[ "/opt/hets/modules/cr_cleaner.py" := File true (b "x" ++ CRLF);
                "/opt/hets/modules/a.py" := File true (b "y" ++ CRLF);
                "/opt/hets/modules/b.py" := Link "/opt/hets/modules/a.py" ]} [] [] [] in
  dirs w !! "/opt/hets/modules" = Some (Dir [] ["cr_cleaner.py"; "a.py"; "b.py"])
  ∧ names_ok (Dir [] ["cr_cleaner.py"; "a.py"; "b.py"]) = true
  ∧ os_path.split_tail "/opt/hets/modules/cr_cleaner.py" = os_path.split_tail demo_file
  ∧ link_of (files w !! "/opt/hets/modules/cr_cleaner.py") = None
  ∧ walker demo_file w "/opt/hets/modules"
    = ["/opt/hets/modules/a.py"; "/opt/hets/modules/b.py"]
  ∧ real_path (files w) "/opt/hets/modules/b.py" = "/opt/hets/modules/a.py"
  ∧ files (cr_finder demo_file "/opt/hets/modules" false false false w).2
      !! "/opt/hets/modules/cr_cleaner.py"
    = Some (File true (b "x" ++ CRLF))
  ∧ files (cr_finder demo_file "/opt/hets/modules" false false false w).2
      !! "/opt/hets/modules/a.py"
    = Some (File true (b "y" ++ NL)).
Proof.
  intros w. split; [reflexivity|]. split; [reflexivity|]. split; [reflexivity|].
  split; [reflexivity|]. split; [reflexivity|]. split; [reflexivity|].
  split; [|vm_compute; reflexivity].
  destruct (cr_finder_spares_module_name demo_file w "/opt/hets/modules"
              (Dir [] ["cr_cleaner.py"; "a.py"; "b.py"]) false false false
              "/opt/hets/modules/cr_cleaner.py") as [-> _]; try reflexivity.
  intros q target Hq.
  change (walker demo_file w "/opt/hets/modules")
    with ["/opt/hets/modules/a.py"; "/opt/hets/modules/b.py"] in Hq.
  apply elem_of_cons in Hq as [->|Hq]; [vm_compute; discriminate|].
  apply list_elem_of_singleton in Hq as ->. vm_compute. discriminate.
Defined.

Lemma get_app_length (pre : string) (a : ascii) (s : string) :
  String.get (String.length pre) (pre +:+ String a s) = Some a.
Proof. induction pre as [|c pre IH]; [done|]. rewrite append_cons. exact IH. Qed.

Lemma skip_leading_dots_app (stem : string) :
  ∀ pre rest,
    os_path.skip_leading_dots (pre +:+ stem +:+ rest)
      (String.length pre) (String.length stem)
    = negb (only_dots stem).
Proof.
  induction stem as [|a stem IH]; intros pre rest; [done|].
  cbn [String.length os_path.skip_leading_dots only_dots].
  rewrite append_cons, get_app_length.
  destruct (Ascii.eqb a ".") eqn:Ea; cbn [negb andb]; [|done].
  specialize (IH (pre +:+ String a "") rest).
  rewrite append_assoc, append_cons, append_nil_l, append_length in IH.
  cbn [String.length] in IH.
  by replace (String.length pre + 1) with (S (String.length pre)) in IH by lia.
Qed.

Lemma take_drop (n : nat) (s : string) : posixpath.take n s +:+ Str.drop n s = s.
Proof.
  revert s. induction n as [|n IH]; intros [|a s]; try done.
  cbn [posixpath.take Str.drop]. by rewrite append_cons, IH.
Qed.

Lemma take_length (n : nat) (s : string) :
  n ≤ String.length s → String.length (posixpath.take n s) = n.
Proof.
  revert s. induction n as [|n IH]; intros [|a s] Hn; simpl in *; try done; try lia.
  rewrite IH; lia.
Qed.

Lemma drop_all (n : nat) (s : string) : String.length s ≤ n → Str.drop n s = "".
Proof.
  revert s. induction n as [|n IH]; intros [|a s] Hn; simpl in *; try done; try lia.
  apply IH. lia.
Qed.

(** The extension of a file name is [.py] exactly when the name is [.py]
    after a stem that is not made of dots only. *)
Lemma splitext_py (fname : string) :
  Str.contains fname "/" = false →
  os_path.splitext_ext fname = ".py"
  ↔ ∃ stem, fname = stem +:+ ".py" ∧ only_dots stem = false.
Proof.
  intros Hn. unfold os_path.splitext_ext, Str.rfind.
  rewrite (rfind_from_absent "/" fname Hn).
  change (Z.to_nat (-1 + 1)) with 0.
  split.
  - set (d := Str.rfind_from "." 0 fname (-1)).
    destruct (-1 <? d)%Z eqn:Hd; [|done].
    replace (Z.to_nat (d - (-1 + 1))) with (Z.to_nat d) by lia.
    destruct (os_path.skip_leading_dots fname 0 (Z.to_nat d)) eqn:Hs; [|done].
    intros Hext. exists (posixpath.take (Z.to_nat d) fname).
    assert (Z.to_nat d ≤ String.length fname) as Hlen.
    { destruct (decide (Z.to_nat d ≤ String.length fname)) as [|Hgt]; [done|].
      rewrite drop_all in Hext by lia. done. }
    pose proof (take_drop (Z.to_nat d) fname) as Htd. rewrite Hext in Htd.
    split; [done|].
    pose proof (skip_leading_dots_app (posixpath.take (Z.to_nat d) fname) "" ".py") as Hk.
    rewrite append_nil_l, Htd, take_length in Hk by done.
    cbn [String.length] in Hk. rewrite Hs in Hk.
    by destruct (only_dots _).
  - intros (stem & -> & Hstem).
    rewrite (rfind_from_app "." stem ".py").
    cbn [Str.rfind_from]. change (Ascii.eqb "." ".") with true.
    change (Ascii.eqb "p" ".") with false. change (Ascii.eqb "y" ".") with false.
    cbv iota.
    assert ((-1 <? 0 + Z.of_nat (String.length stem))%Z = true) as ->
      by (apply Z.ltb_lt; lia).
    replace (Z.to_nat (0 + Z.of_nat (String.length stem) - (-1 + 1)))
      with (String.length stem) by lia.
    replace (Z.to_nat (0 + Z.of_nat (String.length stem)))
      with (String.length stem) by lia.
    pose proof (skip_leading_dots_app stem "" ".py") as Hk.
    rewrite append_nil_l in Hk. cbn [String.length] in Hk.
    rewrite Hk, Hstem. cbn [negb]. apply drop_app_length.
Qed.

(** X18: for a name without a slash, [is_valid] returns [True] exactly when
    the name is not the file name of the module and is a stem followed by
    [.py], the stem not being made of dots only: [a.py] and [.a.py] pass,
    [.py], [..py], [a.PY] and [a.pyc] do not. *)
Theorem is_valid_accepts (module_file fname : string) :
  Str.contains fname "/" = false →
  is_valid module_file fname = PyBool true
  ↔ fname ≠ os_path.split_tail module_file
    ∧ ∃ stem, fname = stem +:+ ".py" ∧ only_dots stem = false.
Proof.
  intros Hn. rewrite <- (splitext_py fname Hn), is_valid_cases.
  destruct (String.eqb_spec fname (os_path.split_tail module_file)) as [Heq|Hne].
  - split; [done | by intros [? _]].
  - unfold TARGET_FILES. split.
    + destruct (bool_decide _) eqn:E; [|done]. intros _. split; [done|].
      by apply bool_decide_eq_true, list_elem_of_singleton in E.
    + intros [_ ->]. by rewrite bool_decide_eq_true_2 by apply list_elem_of_here.
Qed.

Lemma is_valid_accepts_witness :
  Str.contains ".a.py" "/" = false
  ∧ is_valid demo_file ".a.py" = PyBool true
  ∧ Str.contains "..py" "/" = false
  ∧ is_valid demo_file "..py" ≠ PyBool true.
Proof.
  split; [reflexivity|]. split.
  - apply (is_valid_accepts demo_file ".a.py"); [reflexivity|].
    split; [done|]. by exists ".a".
  - split; [reflexivity|].
    intros H. apply (is_valid_accepts demo_file "..py") in H as [_ (stem & Hs & Hd)];
      [|reflexivity].
    assert (String.length stem = 1) as Hlen.
    { apply (f_equal String.length) in Hs. rewrite append_length in Hs.
      simpl in Hs. lia. }
    destruct stem as [|c [|c' stem]]; [done| |done].
    change ("..py" = String c ".py") in Hs. injection Hs as <-. done.
Defined.

(** ** Inspection after the rewrite, and conflicting flags *)

Lemma has_crlf_line_cleaned (data : bytes) :
  has_crlf_line (cleaned data) = negb (no_line_endswith [CR; CR; LF] data).
Proof.
  unfold has_crlf_line, no_line_endswith. rewrite cleaned_lines.
  pose proof (splitlines_elem data) as Hline.
  induction (Bytes.splitlines data) as [|l ls IH]; [done|].
  cbn [map existsb forallb].
  rewrite clean_line_endswith by apply Hline, list_elem_of_here.
  rewrite IH by (intros x Hx; by apply Hline, list_elem_of_further).
  rewrite negb_andb. by rewrite negb_involutive.
Qed.

(** X19: after [cr_cleaner] has rewritten a file, [cr_infile_searching]
    finds a CR in it exactly when a line of the old content ended with
    CR, CR, LF; for a file without such a line the next inspection returns
    [False]. *)
Theorem cr_infile_searching_after_cr_cleaner (w : world) (file_name : string)
    (data : bytes) (verbose : bool) :
  files w !! file_name = Some (File true data) →
  (cr_infile_searching file_name verbose (cr_cleaner file_name false w).2).1
  = Ok (PyBool (negb (no_line_endswith [CR; CR; LF] data))).
Proof.
  intros Hf. rewrite (cr_cleaner_run _ _ _ Hf). cbn [snd].
  set (w' := World _ _ _ _ _).
  assert (files w' !! file_name = Some (File true (cleaned data))) as Hf'
    by apply lookup_insert_eq.
  destruct (inspect_readable w' file_name true verbose _ (entry_at_file _ _ _ _ Hf'))
    as (o & t & -> & _).
  cbn [fst]. by rewrite has_crlf_line_cleaned.
Qed.

Lemma cr_infile_searching_after_cr_cleaner_witness :
  files demo_world !! "/tmp/x/a.py"
  = Some (File true (b "print(1)" ++ CRLF ++ b "print(2)" ++ NL))
  ∧ (cr_infile_searching "/tmp/x/a.py" true
       (cr_cleaner "/tmp/x/a.py" false demo_world).2).1
    = Ok (PyBool false).
Proof.
  split; [reflexivity|].
  rewrite (cr_infile_searching_after_cr_cleaner demo_world "/tmp/x/a.py"
             (b "print(1)" ++ CRLF ++ b "print(2)" ++ NL) true); reflexivity.
Defined.

(** X20: [-a] followed by [-f] and the path of a writable file that is not
    a directory (and is not itself spelled like a flag): the script prints
    the warning about the two flags and goes on; the root given last wins,
    so the file is rewritten: it is left with the terminating CR+LF of each
    of its lines replaced by LF. *)
Theorem main_conflicting_flags (module_file module_doc getcwd : string)
    (w : world) (prog all flag path : string) (data : bytes) :
  Str.lower all = "-a" ∨ all = "--all" →
  Str.lower flag = "-f" ∨ flag = "--file" →
  classify path = NoFlag →
  dirs w !! path = None →
  files w !! path = Some (File true data) →
  main module_file module_doc getcwd [prog; all; flag; path] w
  = (Returned tt,
     World (dirs w) (<[path := File true (cr_cleaner_content data)]> (files w))
       (stdin w)
       (stdout w ++ [Print [OStr "Can not setup -a and -f flags for 1 command"]])
       (trace w ++ [EvClean path; EvOpen path RPlusB]))
  ∧ content_cleaned data (cr_cleaner_content data).
Proof.
  intros Hall Hflag%classify_file Hpath Hd Hf.
  split; [|rewrite cr_cleaner_content_eq; apply cleaned_content_cleaned].
  assert (classify all = FlagAll) as Hall'.
  { unfold classify. destruct Hall as [-> | ->]; [done | reflexivity]. }
  unfold main. change (1 <? length [prog; all; flag; path]) with true. cbv iota.
  unfold enumerate. cbn [drop enumerate_from].
  set (argv := [prog; all; flag; path]).
  set (root := posixpath.split_head (posixpath.abspath getcwd module_file)).
  set (w1 := extend w [Print [OStr "Can not setup -a and -f flags for 1 command"]] []).
  assert (exists_ w1 path = true) as Hex.
  { unfold exists_. cbn [w1 extend files]. rewrite (entry_at_file _ _ _ _ Hf).
    rewrite bool_decide_eq_true_2 by done. apply orb_true_r. }
  assert (isdir w1 path = false) as Hdir.
  { unfold isdir. cbn [w1 extend dirs]. rewrite Hd.
    apply bool_decide_eq_false_2. by intros [? ?]. }
  assert (parse_arg module_file getcwd argv 0 all (Locals false false false false "") w
          = (Returned (Locals false false false true root), w)) as H1.
  { unfold parse_arg. by rewrite Hall'. }
  assert (parse_arg module_file getcwd argv 1 flag
            (Locals false false false true root) w
          = (Returned (Locals false false false true path), w1)) as H2.
  { unfold parse_arg. rewrite Hflag. unfold and_then, warn_conflict, call.
    cbn [l_clear_task_flag l_verbose l_safe_mode l_only_inspect].
    rewrite print_extend. change (argv !! (1 + 2)) with (Some path). cbv beta iota.
    fold w1. by rewrite Hex. }
  assert (parse_arg module_file getcwd argv 2 path
            (Locals false false false true path) w1
          = (Returned (Locals false false false true path), w1)) as H3.
  { unfold parse_arg. by rewrite Hpath. }
  assert (parse_args module_file getcwd argv [(0, all); (1, flag); (2, path)]
            (Locals false false false false "") w
          = (Returned (Locals false false false true path), w1)) as Hparse.
  { cbn [parse_args].
    by rewrite (and_then_returned _ _ _ _ _ H1), (and_then_returned _ _ _ _ _ H2),
         (and_then_returned _ _ _ _ _ H3). }
  rewrite (and_then_returned _ _ _ _ _ Hparse).
  unfold run, and_then, call. cbn [l_cwd l_verbose l_only_inspect l_safe_mode negb].
  assert (files w1 !! path = Some (File true data)) as Hf1 by done.
  rewrite Hdir, (bind_ok _ _ _ _ _ (cr_cleaner_run _ _ _ Hf1)).
  cbn [w1 extend dirs files stdin stdout trace]. rewrite app_nil_r.
  by rewrite cr_cleaner_content_eq.
Qed.

Lemma main_conflicting_flags_witness :
  (Str.lower "-A" = "-a" ∨ "-A" = "--all")
  ∧ (Str.lower "-f" = "-f" ∨ "-f" = "--file")
  ∧ classify "/tmp/b.txt" = NoFlag
  ∧ dirs txt_world !! "/tmp/b.txt" = None
  ∧ files txt_world !! "/tmp/b.txt" = Some (File true (b "ok" ++ CRLF ++ b "fine" ++ NL))
  ∧ stdout (main demo_file "" "/" ["cr_cleaner.py"; "-A"; "-f"; "/tmp/b.txt"] txt_world).2
    = [Print [OStr "Can not setup -a and -f flags for 1 command"]]
  ∧ files (main demo_file "" "/" ["cr_cleaner.py"; "-A"; "-f"; "/tmp/b.txt"] txt_world).2
      !! "/tmp/b.txt"
    = Some (File true (b "ok" ++ NL ++ b "fine" ++ NL)).
Proof.
  split; [by left|]. split; [by left|]. split; [reflexivity|]. split; [reflexivity|].
  split; [reflexivity|].
  destruct (main_conflicting_flags demo_file "" "/" txt_world "cr_cleaner.py" "-A" "-f"
              "/tmp/b.txt" (b "ok" ++ CRLF ++ b "fine" ++ NL)) as [-> _];
    [by left | by left | reflexivity..|].
  split; [reflexivity|]. cbn [snd files]. rewrite lookup_insert_eq. reflexivity.
Defined.
